(** * Verification of [experiments/oneway.py]

    A shallow embedding of the training script of the self-distillation
    experiment: the categorical [sample] primitive, the batch sampler
    [sample_batch], the autoregressive [sample_sequence], the moving
    average [ema_update] and the control loop [go].

    Conventions of the embedding

    - Python integers are [Z]; token tensors are [list Z].
    - Floating-point values are read in exact arithmetic: a finite float
      is a real number and arithmetic on finite floats is exact.  Where
      the script itself manipulates an infinity ([float('inf')]) the type
      [pyfloat] adds the IEEE special values.
    - Where rounding decides a property, the same lines are read in the
      arithmetic the interpreter runs them in: a Python float is a
      binary64 number (Rocq's primitive [float]) and an element of a
      default tensor is a binary32 number (a [spec_float] rounded to 24
      bits of precision).
    - A Python exception is the outcome [Raise]; the interpreter state
      (the two random generators, the tensor heap and the output trace) is
      threaded explicitly and survives an exception.
    - The global random generators, the network and the optimiser are
      external to the script; they are the fields of the classes
      [RandomSources] and [Learner]. *)

From Stdlib Require Import ZArith Reals Lra Lia.
From Stdlib Require Strings.Byte.
From Stdlib Require Import Floats.PrimFloat Floats.SpecFloat Floats.FloatOps.
From stdpp Require Import base option list gmap.

#[local] Open Scope Z_scope.
#[local] Set Warnings "-inexact-float".

(** ** Idealised floats *)

Inductive pyfloat : Type :=
  | Finite (r : R)
  | PosInf
  | NegInf
  | NaN.

Definition is_finite (x : pyfloat) : bool :=
  match x with Finite _ => true | _ => false end.

(** The sign of a real, as the multiplication by an infinity needs it. *)
Inductive sign : Type := Neg | Zero | Pos.

Definition Rsign (r : R) : sign :=
  if Rlt_dec 0 r then Pos else if Rlt_dec r 0 then Neg else Zero.

Definition inf_of_sign (s : sign) : pyfloat :=
  match s with Pos => PosInf | Neg => NegInf | Zero => NaN end.

Definition sign_opp (s : sign) : sign :=
  match s with Pos => Neg | Neg => Pos | Zero => Zero end.

Definition fneg (x : pyfloat) : pyfloat :=
  match x with
  | Finite r => Finite (- r)
  | PosInf => NegInf
  | NegInf => PosInf
  | NaN => NaN
  end.

Definition fadd (x y : pyfloat) : pyfloat :=
  match x, y with
  | NaN, _ | _, NaN => NaN
  | Finite a, Finite b => Finite (a + b)
  | PosInf, NegInf | NegInf, PosInf => NaN
  | PosInf, _ | _, PosInf => PosInf
  | NegInf, _ | _, NegInf => NegInf
  end.

Definition fsub (x y : pyfloat) : pyfloat := fadd x (fneg y).

Definition fmul (x y : pyfloat) : pyfloat :=
  match x, y with
  | NaN, _ | _, NaN => NaN
  | Finite a, Finite b => Finite (a * b)
  | Finite a, PosInf | PosInf, Finite a => inf_of_sign (Rsign a)
  | Finite a, NegInf | NegInf, Finite a => inf_of_sign (sign_opp (Rsign a))
  | PosInf, PosInf | NegInf, NegInf => PosInf
  | PosInf, NegInf | NegInf, PosInf => NegInf
  end.

(** ** Outcomes of a computation *)

Inductive exn : Type :=
  | IndexError
  | ValueError
  | RuntimeError
  | ZeroDivisionError
  (** not a Python exception: torch divides a tensor by [0.0] silently and
      yields infinities or NaNs, which a real number cannot hold, so the
      embedding reports the division instead *)
  | FloatDivisionByZero.

Inductive res (A : Type) : Type :=
  | Ok (a : A)
  | Raise (e : exn).
Arguments Ok {A} a.
Arguments Raise {A} e.

#[global] Instance res_ret : MRet res := fun _ a => Ok a.
#[global] Instance res_bind : MBind res := fun _ _ f m =>
  match m with Ok a => f a | Raise e => Raise e end.

(** ** Python sequences *)

(** A slice bound, normalised the way a slice with step 1 does it:
    a negative bound counts from the end, and both are clamped. *)
Definition slice_bound (n i : Z) : Z :=
  if i <? 0 then Z.max 0 (i + n) else Z.min i n.

(** [l[lo:hi]] *)
Definition py_slice {A} (l : list A) (lo hi : Z) : list A :=
  let n := Z.of_nat (length l) in
  let a := slice_bound n lo in
  let b := slice_bound n hi in
  take (Z.to_nat (b - a)) (drop (Z.to_nat a) l).

(** [l[lo:]] *)
Definition py_slice_from {A} (l : list A) (lo : Z) : list A :=
  py_slice l lo (Z.of_nat (length l)).

(** [l[:hi]] *)
Definition py_slice_to {A} (l : list A) (hi : Z) : list A :=
  py_slice l 0 hi.

(** [l[i]], with the negative indices of Python *)
Definition py_get {A} (l : list A) (i : Z) : res A :=
  let n := Z.of_nat (length l) in
  let j := if i <? 0 then i + n else i in
  if (0 <=? j) && (j <? n) then
    match l !! Z.to_nat j with Some x => Ok x | None => Raise IndexError end
  else Raise IndexError.

(** [range(n)] *)
Definition py_range (n : Z) : list Z := seqZ 0 n.

(** ** Tensors of reals *)

(** Logits of one layer, indexed [batch][position][token]. *)
Abbreviation tensor3 := (list (list (list R))).

Definition Rsum (l : list R) : R := foldr Rplus 0%R l.

(** [x / d] on floats, in exact arithmetic. *)
Definition float_div (x d : R) : res R :=
  if Req_dec_T d 0 then Raise FloatDivisionByZero else Ok (x / d)%R.

(** [t / d] for a vector [t] and a scalar [d]: one division per element. *)
Definition tensor_div (t : list R) (d : R) : res (list R) :=
  mapM (fun x => float_div x d) t.

(** [F.softmax(t, dim=0)] on a vector, in exact arithmetic. *)
Definition softmax (t : list R) : res (list R) :=
  let e := map exp t in
  tensor_div e (Rsum e).

(** [t.argmax()] on a vector: the index of the first maximal element;
    an empty tensor has none, and [argmax] raises an [IndexError]. *)
Fixpoint argmax_from (t : list R) (i best : nat) (vbest : R) : nat :=
  match t with
  | [] => best
  | x :: t' =>
      if Rlt_dec vbest x then argmax_from t' (S i) i x
      else argmax_from t' (S i) best vbest
  end.

Definition argmax (t : list R) : res nat :=
  match t with
  | [] => Raise IndexError
  | x :: t' => Ok (argmax_from t' 1 0 x)
  end.

(** [torch.cat([s[None, :] for s in rows], dim=0)]: the rows stacked into a
    matrix; there must be a row, and all rows must have one length.  (For
    an empty list the class of the exception depends on the release of
    torch, [RuntimeError] or [ValueError]; nothing below relies on it.) *)
Definition torch_cat_rows (rows : list (list Z)) : res (list (list Z)) :=
  match rows with
  | [] => Raise RuntimeError
  | r :: rows' =>
      if forallb (fun r' => Nat.eqb (length r') (length r)) rows'
      then Ok rows else Raise RuntimeError
  end.

(** ** The moving average *)

(** [def ema_update(old, new, beta=0.99): return beta * old + (1 - beta) * new],
    read in exact arithmetic. *)
Definition ema_update (old new beta : pyfloat) : pyfloat :=
  fadd (fmul beta old) (fmul (fsub (Finite 1) beta) new).

(** The default value of [beta]. *)
Definition beta_default : pyfloat := Finite (99 / 100).


(** ** Machine arithmetic *)








(** ** The collaborators of the script *)

(** The two process-wide random generators the script draws from:
    torch's global generator ([torch.randint], [Categorical.sample],
    reseeded by [torch.manual_seed]) and the generator of Python's [random]
    module ([random.randint]).  Their algorithms are not part of the
    script; a draw is a function of the generator state. *)
Class RandomSources : Type := {
  trng : Type;
  prng : Type;
  (** [torch.manual_seed(seed)]: the state the seed determines *)
  torch_manual_seed : Z -> trng;
  (** one element of [torch.randint(low, high)], for [low < high] *)
  torch_randint1 : Z -> Z -> trng -> Z * trng;
  torch_randint1_range : forall low high g,
    low < high -> low <= (torch_randint1 low high g).1 < high;
  (** one draw of [Categorical(p).sample()], for a non-empty [p] *)
  torch_multinomial1 : list R -> trng -> nat * trng;
  (** [random.randint(a, b)], for [a <= b] *)
  random_randint1 : Z -> Z -> prng -> Z * prng;
}.

(** The network with its optimiser, scheduler and gradient scaler
    ([DistGen], [Adam], [OneCycleLR], [GradScaler]) and the helpers of
    [former.util] the script calls. *)
Class Learner `{RandomSources} : Type := {
  learner : Type;
  (** lines 184-208: the network is created and initialised from torch's
      generator, then wrapped with optimiser, scheduler and scaler *)
  create_learner : trng -> learner * trng;
  (** [model(x)]: the logits of the three intermediate layers and of the
      final layer for a batch of token sequences *)
  forward : learner -> list (list Z) -> res (list tensor3);
  (** the loss of one layer against the targets: the negative
      log-likelihood, averaged over batch and position *)
  cross_entropy : tensor3 -> list (list Z) -> R;
  (** the backward pass on a loss, gradient clipping, and the optimiser,
      scaler and scheduler steps of one iteration *)
  optim_step : learner -> list (list Z) -> list (list Z) -> R -> learner;
  (** [util.compute_compression(model, data, context, batch_size)] *)
  compute_compression : learner -> list Z -> Z -> Z -> res R;
}.

(** ** Interpreter state *)

(** What the script prints and logs, and the two calls of the evaluation
    block, labelled with the iteration that makes them. *)
Inductive event : Type :=
  | Print_random_seed (seed : Z)
  | Wandb_init (seed : Z)
  | Print_open
  | Print_close
  | Print_chr (c : Z)
  | Print_newline
  | Log_train_loss (layer : nat) (loss : R)
  | Print_gradient_norms (batch num_batches : Z)
  | Log_learning_rate (instances_seen : Z)
  | Call_sample_sequence (i seedfr : Z)
  | Print_bits_per_byte (i : Z) (bits_per_byte : R)
  | Log_bits_per_byte (bits_per_byte : R) (instances_seen : Z).

(** Token tensors whose identity matters live in a heap. *)
Abbreviation loc := positive.

Section Interp.
Context `{RS : RandomSources}.

Record pstate : Type := PState {
  torch_gen : trng;
  py_gen : prng;
  heap : gmap loc (list Z);
  trace : list event;
}.

Definition M (A : Type) : Type := pstate -> res A * pstate.

#[global] Instance M_ret : MRet M := fun _ a st => (Ok a, st).
#[global] Instance M_bind : MBind M := fun _ _ f m st =>
  match m st with
  | (Ok a, st') => f a st'
  | (Raise e, st') => (Raise e, st')
  end.

Definition lift {A} (r : res A) : M A := fun st => (r, st).

Definition raise {A} (e : exn) : M A := lift (Raise e).

Definition emit (ev : event) : M unit := fun st =>
  (Ok tt, PState (torch_gen st) (py_gen st) (heap st) (trace st ++ [ev])).

(** *** Heap primitives *)

Definition alloc (toks : list Z) : M loc := fun st =>
  let l := fresh (dom (heap st)) in
  (Ok l, PState (torch_gen st) (py_gen st) (<[l := toks]> (heap st)) (trace st)).

Definition read (l : loc) : M (list Z) := fun st =>
  match heap st !! l with
  | Some toks => (Ok toks, st)
  | None => (Raise RuntimeError, st)
  end.

(** [t.detach().clone()]: a fresh tensor with the contents of [t]. *)
Definition clone (t : loc) : M loc :=
  toks ← read t; alloc toks.

(** [torch.cat([t, c[None]], dim=0)]: a fresh tensor, [t] followed by [c]. *)
Definition torch_cat1 (t : loc) (c : Z) : M loc :=
  toks ← read t; alloc (toks ++ [c]).

(** *** Random primitives *)

Definition with_torch_gen {A} (f : trng -> A * trng) : M A := fun st =>
  let '(a, g) := f (torch_gen st) in
  (Ok a, PState g (py_gen st) (heap st) (trace st)).

Definition with_py_gen {A} (f : prng -> A * prng) : M A := fun st =>
  let '(a, g) := f (py_gen st) in
  (Ok a, PState (torch_gen st) g (heap st) (trace st)).

(** [torch.manual_seed(seed)] *)
Definition manual_seed (seed : Z) : M unit := fun st =>
  (Ok tt, PState (torch_manual_seed seed) (py_gen st) (heap st) (trace st)).

Fixpoint randint_draws (low high : Z) (n : nat) (g : trng) : list Z * trng :=
  match n with
  | O => ([], g)
  | S n' =>
      let '(x, g1) := torch_randint1 low high g in
      let '(xs, g2) := randint_draws low high n' g1 in
      (x :: xs, g2)
  end.

(** [torch.randint(size=(size,), low=low, high=high)] *)
Definition torch_randint (size low high : Z) : M (list Z) :=
  if (size <? 0) || (high <=? low) then raise RuntimeError
  else with_torch_gen (randint_draws low high (Z.to_nat size)).

(** [dist.Categorical(p).sample()]; the constructor rejects a [p] without
    outcomes with a [ValueError]. *)
Definition categorical_sample (p : list R) : M nat :=
  match p with
  | [] => raise ValueError
  | _ => with_torch_gen (torch_multinomial1 p)
  end.

(** [random.randint(a, b)] *)
Definition random_randint (a b : Z) : M Z :=
  if b <? a then raise ValueError
  else with_py_gen (random_randint1 a b).

(** ** [sample] *)

Definition sample (lnprobs : list R) (temperature : R) : M nat :=
  if Req_dec_T temperature 0 then
    lift (argmax lnprobs)
  else
    scaled ← lift (tensor_div lnprobs temperature);
    p ← lift (softmax scaled);
    categorical_sample p.

(** ** [sample_batch] *)

Definition sample_batch (data : list Z) (len batch_size : Z)
    : M (list (list Z) * list (list Z)) :=
  starts ← torch_randint batch_size 0 (Z.of_nat (length data) - len - 1);
  let seqs_inputs := map (fun start => py_slice data start (start + len)) starts in
  let seqs_target :=
    map (fun start => py_slice data (start + 1) (start + len + 1)) starts in
  inputs ← lift (torch_cat_rows seqs_inputs);
  target ← lift (torch_cat_rows seqs_target);
  mret (inputs, target).

(** ** [sample_sequence] *)

Fixpoint for_each {A} (l : list A) (body : A -> M unit) : M unit :=
  match l with
  | [] => mret tt
  | x :: l' => body x;; for_each l' body
  end.

(** [print(str(chr(c)), end="")] *)
Definition print_chr (c : Z) : M unit :=
  if (0 <=? c) && (c <? 1114112) then emit (Print_chr c) else raise ValueError.

Context `{LN : !Learner}.

Section SampleSequence.
Variables (model : learner) (max_context : Z) (temperature : R) (verbose : bool).

(** The body of [for _ in range(length)], run [n] times on the current
    binding of [sequence]; the result is its last binding. *)
Fixpoint sample_loop (n : nat) (sequence : loc) : M loc :=
  match n with
  | O => mret sequence
  | S n' =>
      toks ← read sequence;
      let input := py_slice_from toks (- max_context) in
      outputs ← lift (forward model [input]);
      output ← lift (py_get outputs 3);
      row ← lift (py_get output 0);
      lnprobs ← lift (py_get row (-1));
      c ← sample lnprobs temperature;
      (if verbose then print_chr (Z.max 32 (Z.of_nat c)) else mret tt);;
      sequence' ← torch_cat1 sequence (Z.of_nat c);
      sample_loop n' sequence'
  end.

Definition sample_sequence (seed : loc) (len : Z) : M loc :=
  sequence ← clone seed;
  (if verbose then
     emit Print_open;;
     seed_toks ← read seed;
     for_each seed_toks print_chr;;
     emit Print_close
   else mret tt);;
  sample_loop (Z.to_nat len) sequence;;
  emit Print_newline;;
  mret seed.

End SampleSequence.

(** The default [temperature] of [sample_sequence]. *)
Definition temperature_default : R := (1 / 2)%R.

(** ** The helpers of [former.util] *)

Definition mean (l : list R) : R := (Rsum l / INR (length l))%R.

(** Modelled from the spec: [util.LOG2E], "a natural-log-to-base-2
    conversion constant, LOG2E = 1/ln(2)"; [former/util] is not among the
    sources. *)
Definition LOG2E : R := (1 / ln 2)%R.

(** Modelled from the spec: [util.distill_loss] is not among the sources.
    "teacher_loss = per-position negative log-likelihood of target under
    teacher_logits, averaged over batch and position; student_losses[k] =
    the same, computed against student_logits_list[k];
    total_loss = teacher_loss + gamma * mean(student_losses)". *)
Definition distill_loss (teacher_logits : tensor3) (target : list (list Z))
    (student_logits_list : list tensor3) (gamma : R) : R * R * list R :=
  let teacher_loss := cross_entropy teacher_logits target in
  let student_losses :=
    map (fun logits => cross_entropy logits target) student_logits_list in
  ((teacher_loss + gamma * mean student_losses)%R, teacher_loss, student_losses).

(** Modelled from the spec: the per-layer rule of the EMA tracker,
    "new_ema_state[k] = beta * ema_state[k] + (1 - beta) * losses[k] if
    ema_state[k] is finite; otherwise new_ema_state[k] = losses[k]".  The
    blend is the script's own [ema_update]. *)
Definition ema_track (beta old : pyfloat) (loss : R) : pyfloat :=
  if is_finite old then ema_update old (Finite loss) beta else Finite loss.

(** Modelled from the spec: [util.compute_ema_losses] is not among the
    sources.  "Computes one cross-entropy loss per layer", then applies the
    per-layer rule; "beta = 0.99 by default". *)
Definition compute_ema_losses (outputs : list tensor3) (target : list (list Z))
    (ema_state : list pyfloat) (beta : pyfloat) : list R * list pyfloat :=
  let losses := map (fun logits => cross_entropy logits target) outputs in
  (losses, zip_with (ema_track beta) ema_state losses).

(** ** [go] *)

(** The options of [go] the loop reads; the others configure the
    collaborators. *)
Record config : Type := Config {
  num_batches : Z;
  batch_size : Z;
  final : bool;
  context : Z;
  seed : Z;
  test_every : Z;
  test_subset : Z;
  test_batchsize : Z;
  sample_length : Z;
  gamma : R;
}.

(** The three splits [enwik8] returns. *)
Record corpus : Type := Corpus {
  trX : list Z;
  vaX : list Z;
  teX : list Z;
}.

(** The variables the loop carries from one iteration to the next. *)
Record locals : Type := Locals {
  model : learner;
  instances_seen : Z;
  ema_losses : list pyfloat;
}.

(** [a % b] on integers; Rocq's [mod] has the sign conventions of Python. *)
Definition py_mod (a b : Z) : res Z :=
  if b =? 0 then Raise ZeroDivisionError else Ok (a mod b).

(** [i != 0 and (i % test_every == 0 or i == num_batches - 1)]: the
    conjunction does not evaluate its right operand when [i] is [0]. *)
Definition test_now (cfg : config) (i : Z) : res bool :=
  if i =? 0 then Ok false
  else
    r ← py_mod i (test_every cfg);
    Ok ((r =? 0) || (i =? num_batches cfg - 1)).

(** Lines 281-310, the block under the test. *)
Definition evaluation (cfg : config) (data_test : list Z) (i : Z)
    (loc : locals) : M unit :=
  seedfr ← random_randint 0 (Z.of_nat (length data_test) - context cfg);
  seed ← alloc (py_slice data_test seedfr (seedfr + context cfg));
  emit (Call_sample_sequence i seedfr);;
  sample_sequence (model loc) (context cfg) temperature_default true
    seed (sample_length cfg);;
  let upto :=
    if i =? num_batches cfg - 1 then Z.of_nat (length data_test)
    else test_subset cfg in
  let data_sub := py_slice_to data_test upto in
  bits_per_byte ← lift (compute_compression (model loc) data_sub
                          (context cfg) (test_batchsize cfg));
  emit (Print_bits_per_byte i bits_per_byte);;
  emit (Log_bits_per_byte bits_per_byte (instances_seen loc)).

(** The body of [for i in tqdm.trange(num_batches)]. *)
Definition iteration (cfg : config) (data_train data_test : list Z) (i : Z)
    (loc : locals) : M locals :=
  '(source, target) ← sample_batch data_train (context cfg) (batch_size cfg);
  let seen := instances_seen loc + Z.of_nat (length source) in
  outputs ← lift (forward (model loc) source);
  teacher ← lift (py_get outputs 3);
  let '(loss, _, _) :=
    distill_loss teacher target (py_slice outputs 0 3) (gamma cfg) in
  let '(losses, ema) :=
    compute_ema_losses outputs target (ema_losses loc) beta_default in
  for_each (imap (fun idx l => Log_train_loss (idx + 1) (l * LOG2E)%R) losses)
    emit;;
  (* the logging loop rebinds [loss] to each element of [losses] in turn *)
  let loss := default loss (last losses) in
  let model' := optim_step (model loc) source target loss in
  emit (Print_gradient_norms (i + 1) (num_batches cfg));;
  emit (Log_learning_rate seen);;
  let loc' := Locals model' seen ema in
  now ← lift (test_now cfg i);
  (if now : bool then evaluation cfg data_test i loc' else mret tt);;
  mret loc'.

Fixpoint for_range (indices : list Z) (body : Z -> locals -> M locals)
    (loc : locals) : M locals :=
  match indices with
  | [] => mret loc
  | i :: rest => loc' ← body i loc; for_range rest body loc'
  end.

(** Lines 152-156. *)
Definition seeding (cfg : config) : M Z :=
  if seed cfg <? 0 then
    s ← random_randint 0 1000000;
    emit (Print_random_seed s);;
    mret s
  else
    manual_seed (seed cfg);;
    mret (seed cfg).

Definition go (cfg : config) (data : corpus) : M locals :=
  s ← seeding cfg;
  emit (Wandb_init s);;
  let '(data_train, data_test) :=
    if final cfg then (trX data ++ vaX data, teX data)
    else (trX data, vaX data) in
  m ← with_torch_gen create_learner;
  (* [OneCycleLR(total_steps=num_batches)] wants a positive number of steps *)
  (if num_batches cfg <=? 0 then raise ValueError else mret tt);;
  for_range (py_range (num_batches cfg))
    (iteration cfg data_train data_test)
    (Locals m 0 (replicate 4 PosInf)).

End Interp.

(** ** Observations on a run *)

(** Whether a computation returned. *)
Definition is_Ok {A} (r : res A) : bool :=
  match r with Ok _ => true | Raise _ => false end.

Fixpoint count_events (p : event -> bool) (tr : list event) : nat :=
  match tr with
  | [] => 0%nat
  | ev :: tr' => ((if p ev then 1 else 0) + count_events p tr')%nat
  end.

(** The call of [sample_sequence] made by iteration [i]. *)
Definition is_sample_call (i : Z) (ev : event) : bool :=
  match ev with Call_sample_sequence j _ => i =? j | _ => false end.

(** The bits-per-byte line printed by iteration [i]. *)
Definition is_bits_report (i : Z) (ev : event) : bool :=
  match ev with Print_bits_per_byte j _ => i =? j | _ => false end.

(** The test of line 280 as a function of the iteration index. *)
Definition evaluation_due (cfg : config) (i : Z) : bool :=
  negb (i =? 0)
  && ((i mod test_every cfg =? 0) || (i =? num_batches cfg - 1)).

(** The evaluation-seed indices of a trace, with their iterations. *)
Definition sample_calls (tr : list event) : list (Z * Z) :=
  omap (fun ev =>
          match ev with
          | Call_sample_sequence i seedfr => Some (i, seedfr)
          | _ => None
          end) tr.

(** ** Notions for reasoning about computations *)

Section Notions.
Context `{RS : RandomSources}.

(** A computation that leaves the heap as it is. *)
Definition same_heap {A} (m : M A) : Prop :=
  forall st, heap (m st).2 = heap st.

(** A computation that leaves every tensor of the heap as it is (it may
    allocate new ones). *)
Definition keeps_heap {A} (m : M A) : Prop :=
  forall st l toks, heap st !! l = Some toks -> heap (m st).2 !! l = Some toks.

(** The events of the trace that satisfy [p] are counted along a
    computation: [silent p m] adds none, [adds p m k] adds [k] of them
    when [m] returns. *)
Definition silent {A} (p : event -> bool) (m : M A) : Prop :=
  forall st, exists d,
    trace (m st).2 = trace st ++ d /\ count_events p d = 0%nat.

Definition adds {A} (p : event -> bool) (m : M A) (k : nat) : Prop :=
  forall st, exists d,
    trace (m st).2 = trace st ++ d
    /\ forall a, (m st).1 = Ok a -> count_events p d = k.

(** The predicates of the schedule do not select what [sample_sequence]
    prints. *)
Definition ignores_printing (p : event -> bool) : Prop :=
  p Print_open = false /\ p Print_close = false /\ p Print_newline = false
  /\ forall c, p (Print_chr c) = false.

(** A predicate of the schedule selects none of the events that the
    training step and the seeding emit. *)
Definition ignores_training (p : event -> bool) : Prop :=
  (forall s, p (Print_random_seed s) = false)
  /\ (forall s, p (Wandb_init s) = false)
  /\ (forall k l, p (Log_train_loss k l) = false)
  /\ (forall b n, p (Print_gradient_norms b n) = false)
  /\ (forall n, p (Log_learning_rate n) = false)
  /\ (forall b n, p (Log_bits_per_byte b n) = false).

End Notions.

(** ** A small instance of the collaborators

    Generators that count: the state is the number of draws made so far
    (or the seed), and a draw is that number reduced to the range asked
    for.  A network over a vocabulary of one token, which is therefore
    always the one sampled. *)

Lemma counter_randint_range (low high g : Z) :
  low < high -> low <= (low + g mod (high - low), g + 1).1 < high.
Proof.
  intros Hlt; simpl.
  pose proof (Z.mod_pos_bound g (high - low)) as Hb. lia.
Qed.

#[local] Instance counter_random : RandomSources := {|
  trng := Z;
  prng := Z;
  torch_manual_seed := fun s => s;
  torch_randint1 := fun low high g => (low + g mod (high - low), g + 1);
  torch_randint1_range := counter_randint_range;
  torch_multinomial1 := fun _ g => (0%nat, g + 1);
  random_randint1 := fun a b g => (a + g mod (b - a + 1), g + 1);
|}.

#[local] Instance one_token_learner : Learner := {|
  learner := unit;
  create_learner := fun g => (tt, g);
  forward := fun _ x =>
    let t := map (fun row => map (fun _ => [0%R]) row) x in
    Ok [t; t; t; t];
  cross_entropy := fun _ _ => 1%R;
  optim_step := fun m _ _ _ => m;
  compute_compression := fun _ _ _ _ => Ok 1%R;
|}.

(** The interpreter state at the start of a process whose generators are
    in the states [tg] and [pg]. *)
Definition start_state (tg pg : Z) : pstate := PState tg pg ∅ [].

(** A state with one tensor, the seed of the examples. *)
Definition seed_state : pstate :=
  PState 0 0 {[ 1%positive := [65; 66; 67] ]} [].

(** Three iterations with an evaluation after every one, two sequences of
    two tokens per batch, the explicit seed [1], and no token sampled. *)
Definition cfg_run : config := Config 3 2 false 2 1 1 4 1 0 1.

(** One iteration only. *)
Definition cfg_one : config := Config 1 2 false 2 1 1 4 1 0 1.

Definition data_run : corpus :=
  Corpus [1; 2; 3; 4; 5; 6; 7; 8] [11; 12; 13; 14; 15; 16] [21; 22; 23].

(** ** [enwik8] *)

(** Line 13. *)
Definition NUM_TOKENS : Z := 256.

(** [file.read(n)], when it returns: the first [n] bytes of what is left
    of the file, all of it when there are fewer or when [n] is negative
    (the read itself refuses a size below [-1]). *)
Definition file_read (file : list Byte.byte) (n : Z) : list Byte.byte :=
  if n <? 0 then file else take (Z.to_nat n) file.

(** [np.frombuffer(data, dtype=np.uint8)]: a byte as an unsigned number. *)
Definition uint8 (b : Byte.byte) : Z := Z.of_N (Byte.to_N b).

(** [np.split(X, [a, b])]: the slices [X[0:a]], [X[a:b]] and [X[b:len(X)]]. *)
Definition np_split3 {A} (X : list A) (a b : Z)
    : list A * list A * list A :=
  (py_slice X 0 a, py_slice X a b, py_slice X b (Z.of_nat (length X))).

(** [enwik8] applied to a file that decodes (directly or through gzip) to
    the bytes [file]. *)
Definition enwik8 (file : list Byte.byte) (n_train n_valid n_test : Z)
    : corpus :=
  let data := file_read file (n_train + n_valid + n_test) in
  let X := map uint8 data in
  let '(trX, vaX, teX) := np_split3 X n_train (n_train + n_valid) in
  Corpus trX vaX teX.

(** The default sizes, [int(90e6)], [int(5e6)] and [int(5e6)]. *)
Definition n_train_default : Z := 90000000.
Definition n_valid_default : Z := 5000000.
Definition n_test_default : Z := 5000000.

(** ** More observations on a run *)

(** The configuration [cfg] with another distillation weight. *)
Definition set_gamma (cfg : config) (g : R) : config :=
  Config (num_batches cfg) (batch_size cfg) (final cfg) (context cfg)
    (seed cfg) (test_every cfg) (test_subset cfg) (test_batchsize cfg)
    (sample_length cfg) g.

(** Three iterations with [test_every = 0]. *)
Definition cfg_zero : config := Config 3 2 false 2 1 0 4 1 0 1.

(** The state in which the call of [sample_sequence] on [seed_state] with
    [length = 2] at temperature [0.0], without printing, ends. *)
Definition greedy_final : pstate :=
  PState 0 0
    {[ 1%positive := [65; 66; 67];
       2%positive := [65; 66; 67];
       3%positive := [65; 66; 67; 0];
       4%positive := [65; 66; 67; 0; 0] ]}
    [Print_newline].

(** The state in which the call with [length = 0] and printing ends. *)
Definition verbose_final : pstate :=
  PState 0 0
    {[ 1%positive := [65; 66; 67]; 2%positive := [65; 66; 67] ]}
    [Print_open; Print_chr 65; Print_chr 66; Print_chr 67; Print_close;
     Print_newline].

(** * Properties *)

(** ** The moving average *)

Section Ema.
#[local] Open Scope R_scope.

Lemma ema_update_finite (old new beta : R) :
  ema_update (Finite old) (Finite new) (Finite beta)
  = Finite (beta * old + (1 - beta) * new).
Proof. reflexivity. Qed.

(** The blend alone keeps an infinite average infinite. *)
Lemma ema_update_inf (new : R) :
  ema_update PosInf (Finite new) beta_default = PosInf.
Proof.
  unfold ema_update, beta_default, fsub, fmul, fneg, fadd, Rsign.
  destruct (Rlt_dec 0 (99 / 100)) as [_ | Hn]; [reflexivity | lra].
Qed.






(** In exact arithmetic the constant loss is a fixed point of the update:
    an average that equals it does not move strictly closer. *)
Lemma ema_fixed_point_not_strict :
  ~ (forall old L : R, exists y,
        ema_update (Finite old) (Finite L) beta_default = Finite y /\
        Rabs (y - L) < Rabs (old - L)).
Proof.
  intros H. destruct (H 1 1) as (y & Hy & Hlt).
  unfold beta_default in Hy. rewrite ema_update_finite in Hy.
  injection Hy as Hy.
  replace (y - 1) with 0 in Hlt by lra.
  replace (1 - 1) with 0 in Hlt by lra.
  lra.
Qed.




End Ema.

(** ** The helpers of [former.util] *)

Section Util.
Context `{LN : Learner}.
#[local] Open Scope R_scope.

(** C3: the objective of the loss combiner is
    [teacher_loss + gamma * mean student_losses], where the teacher loss
    and the student losses it returns are the layer losses and do not
    depend on [gamma]; with [gamma = 0] the objective is the teacher loss
    itself. *)
Theorem distill_loss_total (teacher : tensor3) (target : list (list Z))
    (students : list tensor3) (gamma : R) :
  (distill_loss teacher target students gamma).1.1
  = (distill_loss teacher target students gamma).1.2
    + gamma * mean (distill_loss teacher target students gamma).2
  /\ (distill_loss teacher target students gamma).1.2
     = cross_entropy teacher target
  /\ (distill_loss teacher target students gamma).2
     = map (fun logits => cross_entropy logits target) students
  /\ (distill_loss teacher target students 0).1.1
     = (distill_loss teacher target students 0).1.2.
Proof.
  unfold distill_loss; simpl.
  repeat split. lra.
Qed.

Lemma ema_track_finite (beta : R) (old : pyfloat) (loss : R) :
  is_finite (ema_track (Finite beta) old loss) = true.
Proof. destruct old; reflexivity. Qed.

Lemma compute_ema_losses_finite (outputs : list tensor3)
    (target : list (list Z)) (ema_state : list pyfloat) (beta : R) :
  Forall (fun e => is_finite e = true)
    (compute_ema_losses outputs target ema_state (Finite beta)).2.
Proof.
  unfold compute_ema_losses; simpl.
  generalize (map (fun logits => cross_entropy logits target) outputs).
  induction ema_state as [| e es IH]; intros [| l ls]; simpl;
    try constructor; auto using ema_track_finite.
Qed.

(** C4: layer by layer, the tracker blends a finite average with the new
    loss, [beta * ema_state[k] + (1 - beta) * losses[k]] with
    [beta = 0.99], and replaces an average that is not finite by the new
    loss; no entry of the new state is infinite, whatever the old state
    was. *)
Theorem ema_tracker_update (outputs : list tensor3) (target : list (list Z))
    (ema_state : list pyfloat) (k : nat) (e : pyfloat) (l : R) :
  ema_state !! k = Some e ->
  (compute_ema_losses outputs target ema_state beta_default).1 !! k = Some l ->
  (compute_ema_losses outputs target ema_state beta_default).2 !! k
  = Some (match e with
          | Finite x => Finite (99 / 100 * x + (1 - 99 / 100) * l)
          | _ => Finite l
          end)
  /\ Forall (fun e' => is_finite e' = true)
       (compute_ema_losses outputs target ema_state beta_default).2.
Proof.
  intros He Hl. split; [| apply compute_ema_losses_finite].
  unfold compute_ema_losses in *; simpl in *.
  rewrite lookup_zip_with, He; simpl. rewrite Hl; simpl.
  f_equal. destruct e; reflexivity.
Qed.

End Util.

(** ** Reasoning about computations *)

Section Computations.
Context `{RS : RandomSources}.

Lemma bind_Ok_inv {A B} (m : M A) (f : A -> M B) st b st' :
  (m ≫= f) st = (Ok b, st') ->
  exists a st1, m st = (Ok a, st1) /\ f a st1 = (Ok b, st').
Proof.
  unfold mbind, M_bind. destruct (m st) as [[a | e] st1]; intros Hf.
  - eauto.
  - discriminate.
Qed.

Lemma bind_Ok {A B} (m : M A) (f : A -> M B) st a st1 :
  m st = (Ok a, st1) -> (m ≫= f) st = f a st1.
Proof. unfold mbind, M_bind. intros ->. reflexivity. Qed.

Lemma bind_Raise {A B} (m : M A) (f : A -> M B) st e st1 :
  m st = (Raise e, st1) -> (m ≫= f) st = (Raise e, st1).
Proof. unfold mbind, M_bind. intros ->. reflexivity. Qed.

Lemma lift_Ok_inv {A} (r : res A) st a st' :
  lift r st = (Ok a, st') -> r = Ok a /\ st' = st.
Proof. unfold lift. intros [= -> ->]. auto. Qed.

Lemma with_torch_gen_trace {A} (f : trng -> A * trng) st :
  exists a, (with_torch_gen f st).1 = Ok a
    /\ heap (with_torch_gen f st).2 = heap st
    /\ trace (with_torch_gen f st).2 = trace st
    /\ py_gen (with_torch_gen f st).2 = py_gen st.
Proof.
  unfold with_torch_gen. destruct (f (torch_gen st)) as [a g]. simpl. eauto.
Qed.

End Computations.

(** ** [sample] *)

Section Sample.
Context `{RS : RandomSources}.
#[local] Open Scope R_scope.

Lemma sample_greedy (lnprobs : list R) (st : pstate) :
  sample lnprobs 0 st = (argmax lnprobs, st).
Proof.
  unfold sample. destruct (Req_dec_T 0 0) as [_ | Hn]; [reflexivity | lra].
Qed.

(** [argmax_from t (length pre) best vbest] continues a scan of
    [pre ++ t] that has read [pre] and found its first maximum [vbest] at
    [best]. *)
Lemma argmax_from_spec (t pre : list R) (best : nat) (vbest : R) :
  pre !! best = Some vbest ->
  (forall j y, pre !! j = Some y -> y <= vbest) ->
  (forall j y, (j < best)%nat -> pre !! j = Some y -> y < vbest) ->
  exists x,
    (pre ++ t) !! argmax_from t (length pre) best vbest = Some x
    /\ (forall j y, (pre ++ t) !! j = Some y -> y <= x)
    /\ (forall j y, (j < argmax_from t (length pre) best vbest)%nat ->
          (pre ++ t) !! j = Some y -> y < x).
Proof.
  revert pre best vbest.
  induction t as [| x t IH]; intros pre best vbest Hbest Hmax Hfirst.
  - simpl. rewrite app_nil_r. eauto.
  - assert (Hlen : (best < length pre)%nat)
      by (apply lookup_lt_is_Some; eauto).
    simpl. rewrite (cons_middle x pre t), app_assoc.
    replace (S (length pre)) with (length (pre ++ [x]))
      by (rewrite length_app; simpl; lia).
    destruct (Rlt_dec vbest x) as [Hlt | Hge].
    + replace (length (pre ++ [x])) with (S (length pre))
        by (rewrite length_app; simpl; lia).
      replace (S (length pre)) with (length (pre ++ [x]))
        by (rewrite length_app; simpl; lia).
      apply IH.
      * rewrite lookup_app_r by lia.
        replace (length pre - length pre)%nat with 0%nat by lia. reflexivity.
      * intros j y Hj. apply lookup_app_Some in Hj as [Hj | [_ Hj]].
        -- apply Hmax in Hj. lra.
        -- apply list_lookup_singleton_Some in Hj as [_ ->]. lra.
      * intros j y Hj Hy. rewrite lookup_app_l in Hy by lia.
        apply Hmax in Hy. lra.
    + apply IH.
      * rewrite lookup_app_l by lia. exact Hbest.
      * intros j y Hj. apply lookup_app_Some in Hj as [Hj | [_ Hj]].
        -- eauto.
        -- apply list_lookup_singleton_Some in Hj as [_ ->]. lra.
      * intros j y Hj Hy. rewrite lookup_app_l in Hy by lia. eauto.
Qed.

Lemma argmax_spec (x0 : R) (t : list R) :
  exists i x,
    argmax (x0 :: t) = Ok i
    /\ (x0 :: t) !! i = Some x
    /\ (forall j y, (x0 :: t) !! j = Some y -> y <= x)
    /\ (forall j y, (j < i)%nat -> (x0 :: t) !! j = Some y -> y < x).
Proof.
  destruct (argmax_from_spec t [x0] 0 x0) as (x & Hx & Hmax & Hfirst).
  - reflexivity.
  - intros [| j] y; simpl; [intros [= ->]; lra | discriminate].
  - intros j y Hj. lia.
  - exists (argmax_from t 1 0 x0), x. simpl in *. auto.
Qed.

(** C7: at temperature [0.0], [sample] returns the index of a maximal
    log-probability; it leaves the interpreter state, the random
    generators included, as it found it, and returns that same index from
    every state. *)
Theorem sample_zero_temperature (lnprobs : list R) (st : pstate) :
  lnprobs <> [] ->
  exists (i : nat) (x : R),
    sample lnprobs 0 st = (Ok i, st)
    /\ lnprobs !! i = Some x
    /\ (forall (j : nat) (y : R), lnprobs !! j = Some y -> y <= x)
    /\ (forall st' : pstate, sample lnprobs 0 st' = (Ok i, st')).
Proof.
  intros Hne. destruct lnprobs as [| x0 t]; [congruence |].
  destruct (argmax_spec x0 t) as (i & x & Hi & Hx & Hmax & _).
  exists i, x. rewrite sample_greedy, Hi.
  repeat split; auto.
  intros st'. rewrite sample_greedy, Hi. reflexivity.
Qed.

End Sample.


(** ** [sample_batch] *)

Section SampleBatch.
Context `{RS : RandomSources}.

Lemma randint_draws_spec (low high : Z) (n : nat) (g : trng) :
  low < high ->
  length (randint_draws low high n g).1 = n
  /\ Forall (fun x => low <= x < high) (randint_draws low high n g).1.
Proof.
  intros Hlt. revert g. induction n as [| n IH]; intros g; simpl.
  - split; [reflexivity | constructor].
  - pose proof (torch_randint1_range low high g Hlt) as Hx.
    destruct (torch_randint1 low high g) as [x g1]. simpl in Hx.
    specialize (IH g1).
    destruct (randint_draws low high n g1) as [xs g2]. simpl in *.
    destruct IH as [IHl IHr]. split; [lia | constructor; assumption].
Qed.

Lemma torch_randint_Ok_inv (size low high : Z) (st : pstate) xs st' :
  torch_randint size low high st = (Ok xs, st') ->
  0 <= size /\ low < high
  /\ Z.of_nat (length xs) = size
  /\ Forall (fun x => low <= x < high) xs.
Proof.
  unfold torch_randint.
  destruct (size <? 0) eqn:Hs; [discriminate |].
  destruct (high <=? low) eqn:Hh; [discriminate |]. simpl.
  apply Z.ltb_ge in Hs. apply Z.leb_gt in Hh.
  unfold with_torch_gen.
  pose proof (randint_draws_spec low high (Z.to_nat size) (torch_gen st) Hh)
    as [Hlen Hall].
  destruct (randint_draws low high (Z.to_nat size) (torch_gen st)) as [ys g].
  intros [= <- <-]. simpl in *. repeat split; try assumption; lia.
Qed.

Lemma torch_randint_Ok (size low high : Z) (st : pstate) :
  0 <= size -> low < high ->
  exists xs st', torch_randint size low high st = (Ok xs, st').
Proof.
  intros Hs Hh. unfold torch_randint.
  apply Z.ltb_ge in Hs as ->. apply Z.leb_gt in Hh as ->. simpl.
  unfold with_torch_gen.
  destruct (randint_draws low high (Z.to_nat size) (torch_gen st)) as [ys g].
  eauto.
Qed.

(** A slice that lies inside the sequence is the window it names. *)
Lemma py_slice_window {A} (l : list A) (a len : Z) :
  0 <= a -> 0 <= len -> a + len <= Z.of_nat (length l) ->
  py_slice l a (a + len) = take (Z.to_nat len) (drop (Z.to_nat a) l).
Proof.
  intros Ha Hlen Hfit. unfold py_slice, slice_bound.
  destruct (a <? 0) eqn:E1; [apply Z.ltb_lt in E1; lia |].
  destruct (a + len <? 0) eqn:E2; [apply Z.ltb_lt in E2; lia |].
  rewrite !Z.min_l by lia.
  replace (a + len - a) with len by lia. reflexivity.
Qed.

Lemma py_slice_window_length {A} (l : list A) (a len : Z) :
  0 <= a -> 0 <= len -> a + len <= Z.of_nat (length l) ->
  length (py_slice l a (a + len)) = Z.to_nat len.
Proof.
  intros Ha Hlen Hfit. rewrite py_slice_window by assumption.
  rewrite length_take, length_drop. lia.
Qed.

Lemma py_slice_window_lookup {A} (l : list A) (a len c : Z) :
  0 <= a -> a + len <= Z.of_nat (length l) -> 0 <= c < len ->
  exists x,
    l !! Z.to_nat (a + c) = Some x
    /\ py_slice l a (a + len) !! Z.to_nat c = Some x.
Proof.
  intros Ha Hfit Hc. rewrite py_slice_window by lia.
  rewrite lookup_take_lt by lia. rewrite lookup_drop.
  replace (Z.to_nat a + Z.to_nat c)%nat with (Z.to_nat (a + c)) by lia.
  destruct (lookup_lt_is_Some_2 l (Z.to_nat (a + c))) as [x Hx]; [lia |].
  eauto.
Qed.

Lemma torch_cat_rows_Ok_inv (rows m : list (list Z)) :
  torch_cat_rows rows = Ok m -> m = rows.
Proof.
  unfold torch_cat_rows. destruct rows as [| r rows]; [discriminate |].
  destruct (forallb _ rows); [intros [= <-]; reflexivity | discriminate].
Qed.

Lemma torch_cat_rows_Ok (rows : list (list Z)) (k : nat) :
  rows <> [] -> Forall (fun r => length r = k) rows ->
  torch_cat_rows rows = Ok rows.
Proof.
  intros Hne Hall. unfold torch_cat_rows.
  destruct rows as [| r rows]; [congruence |].
  apply Forall_cons in Hall as [Hr Hall].
  replace (forallb (fun r' => Nat.eqb (length r') (length r)) rows) with true;
    [reflexivity |].
  symmetry. apply forallb_forall. intros r' Hin.
  apply Nat.eqb_eq. rewrite Hr.
  rewrite Forall_forall in Hall. apply Hall.
  apply list_elem_of_In. exact Hin.
Qed.

(** C2: when [length + 1 < len(source)] and [batch_size >= 1],
    [sample_batch] returns (for a length that is not negative), and every
    row [r] of the pair it returns is the window of the source at a start
    [start_r] with [0 <= start_r] and [start_r + length < len(source)]:
    [input_row[c] = source[start_r + c]] and
    [target_row[c] = source[start_r + c + 1]] for every [c] in
    [[0, length)], both positions being inside the source. *)
Theorem sample_batch_windows (data : list Z) (len batch_size : Z)
    (st : pstate) :
  len + 1 < Z.of_nat (length data) ->
  1 <= batch_size ->
  (0 <= len ->
     exists inputs target st',
       sample_batch data len batch_size st = (Ok (inputs, target), st'))
  /\ (forall inputs target st',
        sample_batch data len batch_size st = (Ok (inputs, target), st') ->
        exists starts : list Z,
          Z.of_nat (length starts) = batch_size
          /\ length inputs = length starts
          /\ length target = length starts
          /\ forall (r : nat) (start : Z),
               starts !! r = Some start ->
               0 <= start
               /\ start + len < Z.of_nat (length data)
               /\ exists input_row target_row : list Z,
                    inputs !! r = Some input_row
                    /\ target !! r = Some target_row
                    /\ (0 <= len ->
                          length input_row = Z.to_nat len
                          /\ length target_row = Z.to_nat len)
                    /\ forall c : Z, 0 <= c < len ->
                         exists x y : Z,
                           data !! Z.to_nat (start + c) = Some x
                           /\ input_row !! Z.to_nat c = Some x
                           /\ data !! Z.to_nat (start + c + 1) = Some y
                           /\ target_row !! Z.to_nat c = Some y).
Proof.
  intros Hpre Hbs. split.
  - intros Hlen.
    destruct (torch_randint_Ok batch_size 0
                (Z.of_nat (length data) - len - 1) st)
      as (starts & st1 & Hdraw); [lia | lia |].
    apply torch_randint_Ok_inv in Hdraw as Hspec.
    destruct Hspec as (_ & _ & Hn & Hrange).
    exists (map (fun start => py_slice data start (start + len)) starts).
    exists (map (fun start => py_slice data (start + 1) (start + len + 1)) starts).
    exists st1.
    unfold sample_batch. rewrite (bind_Ok _ _ _ _ _ Hdraw).
    assert (Hne : starts <> []) by (intros ->; simpl in Hn; lia).
    erewrite bind_Ok; cycle 1.
    { unfold lift. erewrite torch_cat_rows_Ok with (k := Z.to_nat len);
        [reflexivity | by destruct starts |].
      apply Forall_fmap. eapply Forall_impl; [exact Hrange |].
      intros start Hs; simpl in *. apply py_slice_window_length; lia. }
    erewrite bind_Ok; cycle 1.
    { unfold lift. erewrite torch_cat_rows_Ok with (k := Z.to_nat len);
        [reflexivity | by destruct starts |].
      apply Forall_fmap. eapply Forall_impl; [exact Hrange |].
      intros start Hs; simpl in *.
      replace (start + len + 1) with (start + 1 + len) by lia.
      apply py_slice_window_length; lia. }
    reflexivity.
  - intros inputs target st' Hrun. unfold sample_batch in Hrun.
    apply bind_Ok_inv in Hrun as (starts & st1 & Hdraw & Hrun).
    apply bind_Ok_inv in Hrun as (inputs' & st2 & Hin & Hrun).
    apply bind_Ok_inv in Hrun as (target' & st3 & Htg & Hrun).
    apply lift_Ok_inv in Hin as [Hin ->].
    apply lift_Ok_inv in Htg as [Htg ->].
    apply torch_cat_rows_Ok_inv in Hin, Htg. subst inputs' target'.
    injection Hrun as <- <- <-.
    apply torch_randint_Ok_inv in Hdraw as (_ & _ & Hn & Hrange).
    exists starts. rewrite !length_map.
    split; [assumption |]. split; [reflexivity |]. split; [reflexivity |].
    intros r start Hr.
    rewrite Forall_lookup in Hrange. specialize (Hrange _ _ Hr).
    simpl in Hrange.
    split; [lia |]. split; [lia |].
    exists (py_slice data start (start + len)).
    exists (py_slice data (start + 1) (start + len + 1)).
    rewrite !list_lookup_fmap, Hr; simpl.
    split; [reflexivity |]. split; [reflexivity |]. split.
    + intros Hlen. split.
      * apply py_slice_window_length; lia.
      * replace (start + len + 1) with (start + 1 + len) by lia.
        apply py_slice_window_length; lia.
    + intros c Hc.
      destruct (py_slice_window_lookup data start len c)
        as (x & Hx & Hix); [lia | lia | lia |].
      destruct (py_slice_window_lookup data (start + 1) len c)
        as (y & Hy & Hty); [lia | lia | lia |].
      exists x, y.
      replace (start + len + 1) with (start + 1 + len) by lia.
      replace (start + c + 1) with (start + 1 + c) by lia.
      auto.
Qed.

End SampleBatch.

(** ** [sample_sequence] *)

Section SampleSequenceProperties.
Context `{LN : Learner}.

Lemma same_heap_keeps {A} (m : M A) : same_heap m -> keeps_heap m.
Proof. intros Hm st l toks Hl. rewrite Hm. exact Hl. Qed.

Lemma same_heap_ret {A} (a : A) : same_heap (mret a : M A).
Proof. intros st. reflexivity. Qed.

Lemma same_heap_lift {A} (r : res A) : same_heap (lift r).
Proof. intros st. reflexivity. Qed.

Lemma same_heap_emit (ev : event) : same_heap (emit ev).
Proof. intros st. reflexivity. Qed.

Lemma same_heap_read (l : loc) : same_heap (read l).
Proof. intros st. unfold read. destruct (heap st !! l); reflexivity. Qed.

Lemma same_heap_with_torch_gen {A} (f : trng -> A * trng) :
  same_heap (with_torch_gen f).
Proof.
  intros st. destruct (with_torch_gen_trace f st) as (a & _ & Hh & _).
  exact Hh.
Qed.

Lemma same_heap_bind {A B} (m : M A) (f : A -> M B) :
  same_heap m -> (forall a, same_heap (f a)) -> same_heap (m ≫= f).
Proof.
  intros Hm Hf st. unfold mbind, M_bind.
  specialize (Hm st). destruct (m st) as [[a | e] st1]; simpl in *.
  - rewrite Hf. exact Hm.
  - exact Hm.
Qed.

Lemma keeps_heap_bind {A B} (m : M A) (f : A -> M B) :
  keeps_heap m -> (forall a, keeps_heap (f a)) -> keeps_heap (m ≫= f).
Proof.
  intros Hm Hf st l toks Hl. unfold mbind, M_bind.
  specialize (Hm st l toks Hl). destruct (m st) as [[a | e] st1]; simpl in *.
  - apply Hf. exact Hm.
  - exact Hm.
Qed.

Lemma keeps_heap_alloc (toks : list Z) : keeps_heap (alloc toks).
Proof.
  intros st l toks' Hl. unfold alloc; simpl.
  rewrite lookup_insert_ne; [exact Hl |].
  intros <-.
  apply (is_fresh (dom (heap st))). apply elem_of_dom. eauto.
Qed.

Lemma same_heap_sample (lnprobs : list R) (temperature : R) :
  same_heap (sample lnprobs temperature).
Proof.
  unfold sample. destruct (Req_dec_T temperature 0).
  - apply same_heap_lift.
  - apply same_heap_bind; [apply same_heap_lift | intros scaled].
    apply same_heap_bind; [apply same_heap_lift | intros p].
    unfold categorical_sample. destruct p.
    + apply same_heap_lift.
    + apply same_heap_with_torch_gen.
Qed.

Lemma same_heap_print_chr (c : Z) : same_heap (print_chr c).
Proof.
  unfold print_chr. destruct (_ && _).
  - apply same_heap_emit.
  - apply same_heap_lift.
Qed.

Lemma same_heap_for_each {A} (l : list A) (body : A -> M unit) :
  (forall x, same_heap (body x)) -> same_heap (for_each l body).
Proof.
  intros Hb. induction l as [| x l IH]; simpl.
  - apply same_heap_ret.
  - apply same_heap_bind; [apply Hb | intros _; exact IH].
Qed.

Lemma keeps_heap_clone (t : loc) : keeps_heap (clone t).
Proof.
  apply keeps_heap_bind.
  - apply same_heap_keeps, same_heap_read.
  - intros toks. apply keeps_heap_alloc.
Qed.

Lemma keeps_heap_torch_cat1 (t : loc) (c : Z) : keeps_heap (torch_cat1 t c).
Proof.
  apply keeps_heap_bind.
  - apply same_heap_keeps, same_heap_read.
  - intros toks. apply keeps_heap_alloc.
Qed.

Lemma same_heap_verbose_chr (verbose : bool) (c : Z) :
  same_heap (if verbose then print_chr c else mret tt).
Proof.
  destruct verbose; [apply same_heap_print_chr | apply same_heap_ret].
Qed.

Lemma keeps_heap_sample_loop model max_context temperature verbose n :
  forall sequence,
    keeps_heap (sample_loop model max_context temperature verbose n sequence).
Proof.
  induction n as [| n IH]; intros sequence; simpl.
  - apply same_heap_keeps, same_heap_ret.
  - apply keeps_heap_bind; [apply same_heap_keeps, same_heap_read | intros toks].
    apply keeps_heap_bind; [apply same_heap_keeps, same_heap_lift | intros outputs].
    apply keeps_heap_bind; [apply same_heap_keeps, same_heap_lift | intros output].
    apply keeps_heap_bind; [apply same_heap_keeps, same_heap_lift | intros row].
    apply keeps_heap_bind; [apply same_heap_keeps, same_heap_lift | intros lnprobs].
    apply keeps_heap_bind; [apply same_heap_keeps, same_heap_sample | intros c].
    apply keeps_heap_bind;
      [apply same_heap_keeps, same_heap_verbose_chr | intros _].
    apply keeps_heap_bind; [apply keeps_heap_torch_cat1 | intros sequence'].
    apply IH.
Qed.

Lemma same_heap_print_seed (verbose : bool) (seed : loc) :
  same_heap
    (if verbose then
       emit Print_open;;
       seed_toks ← read seed;
       for_each seed_toks print_chr;;
       emit Print_close
     else mret tt).
Proof.
  destruct verbose; [| apply same_heap_ret].
  apply same_heap_bind; [apply same_heap_emit | intros _].
  apply same_heap_bind; [apply same_heap_read | intros seed_toks].
  apply same_heap_bind; [| intros _; apply same_heap_emit].
  apply same_heap_for_each, same_heap_print_chr.
Qed.

Lemma keeps_heap_sample_sequence model max_context temperature verbose
    seed len :
  keeps_heap (sample_sequence model max_context temperature verbose seed len).
Proof.
  unfold sample_sequence.
  apply keeps_heap_bind; [apply keeps_heap_clone | intros sequence].
  apply keeps_heap_bind;
    [apply same_heap_keeps, same_heap_print_seed | intros _].
  apply keeps_heap_bind; [apply keeps_heap_sample_loop | intros _].
  apply keeps_heap_bind; [apply same_heap_keeps, same_heap_emit | intros _].
  apply same_heap_keeps, same_heap_ret.
Qed.

(** C9: whatever the model, the options and the length, and whether the
    call returns or raises, the seed tensor holds after
    [sample_sequence] the tokens it held before. *)
Theorem sample_sequence_keeps_seed (model : learner) (max_context : Z)
    (temperature : R) (verbose : bool) (seed : loc) (len : Z)
    (st : pstate) (toks : list Z) :
  heap st !! seed = Some toks ->
  heap (sample_sequence model max_context temperature verbose seed len st).2
    !! seed = Some toks.
Proof. apply keeps_heap_sample_sequence. Qed.

(** What a call that returns hands back: the reference it was given. *)
Lemma sample_sequence_returns_seed (model : learner) (max_context : Z)
    (temperature : R) (verbose : bool) (seed : loc) (len : Z)
    (st st' : pstate) (r : loc) :
  sample_sequence model max_context temperature verbose seed len st
  = (Ok r, st') ->
  r = seed /\ heap st' !! r = heap st !! seed /\ is_Some (heap st !! seed).
Proof.
  intros Hrun.
  assert (Hseed : is_Some (heap st !! seed)).
  { unfold sample_sequence in Hrun.
    apply bind_Ok_inv in Hrun as (sequence & st1 & Hclone & _).
    unfold clone in Hclone.
    apply bind_Ok_inv in Hclone as (toks & st2 & Hread & _).
    unfold read in Hread. destruct (heap st !! seed); [eauto | discriminate]. }
  destruct Hseed as [toks Htoks].
  pose proof (keeps_heap_sample_sequence model max_context temperature
                verbose seed len st seed toks Htoks) as Hkeep.
  rewrite Hrun in Hkeep. simpl in Hkeep.
  unfold sample_sequence in Hrun.
  apply bind_Ok_inv in Hrun as (sequence & st1 & _ & Hrun).
  apply bind_Ok_inv in Hrun as (? & st2 & _ & Hrun).
  apply bind_Ok_inv in Hrun as (? & st3 & _ & Hrun).
  apply bind_Ok_inv in Hrun as (? & st4 & _ & Hrun).
  injection Hrun as <- <-.
  rewrite Hkeep, Htoks. eauto.
Qed.

(** One iteration of the sampling loop at temperature [0.0], without
    printing: the next binding of [sequence] is a fresh tensor. *)
Lemma sample_loop_greedy_step (model : learner) (max_context : Z) (n : nat)
    (sequence : loc) (st : pstate) (toks : list Z) (outputs : list tensor3)
    (output : list (list (list R))) (row : list (list R))
    (lnprobs : list R) (c : nat) :
  heap st !! sequence = Some toks ->
  forward model [py_slice_from toks (- max_context)] = Ok outputs ->
  py_get outputs 3 = Ok output ->
  py_get output 0 = Ok row ->
  py_get row (-1) = Ok lnprobs ->
  argmax lnprobs = Ok c ->
  sample_loop model max_context 0 false (S n) sequence st
  = sample_loop model max_context 0 false n (fresh (dom (heap st)))
      (PState (torch_gen st) (py_gen st)
         (<[fresh (dom (heap st)) := toks ++ [Z.of_nat c]]> (heap st))
         (trace st)).
Proof.
  intros Hseq Hfwd Hout Hrow Hln Hc. simpl.
  assert (Hread : read sequence st = (Ok toks, st))
    by (unfold read; rewrite Hseq; reflexivity).
  rewrite (bind_Ok _ _ _ _ _ Hread).
  erewrite bind_Ok by (unfold lift; rewrite Hfwd; reflexivity).
  erewrite bind_Ok by (unfold lift; rewrite Hout; reflexivity).
  erewrite bind_Ok by (unfold lift; rewrite Hrow; reflexivity).
  erewrite bind_Ok by (unfold lift; rewrite Hln; reflexivity).
  erewrite bind_Ok by (rewrite sample_greedy, Hc; reflexivity).
  erewrite bind_Ok by reflexivity.
  erewrite bind_Ok; [reflexivity |].
  unfold torch_cat1. rewrite (bind_Ok _ _ _ _ _ Hread). reflexivity.
Qed.

End SampleSequenceProperties.

(** ** The evaluation schedule of [go] *)

Section Schedule.
Context `{LN : Learner}.

Lemma count_events_app (p : event -> bool) (d1 d2 : list event) :
  count_events p (d1 ++ d2) = (count_events p d1 + count_events p d2)%nat.
Proof. induction d1 as [| e d1 IH]; simpl; [reflexivity | rewrite IH; lia]. Qed.

Lemma silent_unchanged {A} (p : event -> bool) (m : M A) :
  (forall st, trace (m st).2 = trace st) -> silent p m.
Proof. intros Hm st. exists []. rewrite app_nil_r. auto. Qed.

Lemma silent_adds {A} (p : event -> bool) (m : M A) :
  silent p m -> adds p m 0.
Proof. intros Hm st. destruct (Hm st) as (d & Hd & Hc). eauto. Qed.

Lemma silent_bind {A B} (p : event -> bool) (m : M A) (f : A -> M B) :
  silent p m -> (forall a, silent p (f a)) -> silent p (m ≫= f).
Proof.
  intros Hm Hf st. unfold mbind, M_bind.
  destruct (Hm st) as (d1 & Hd1 & Hc1).
  destruct (m st) as [[a | e] st1]; simpl in *.
  - destruct (Hf a st1) as (d2 & Hd2 & Hc2).
    exists (d1 ++ d2). rewrite Hd2, Hd1, app_assoc, count_events_app.
    split; [reflexivity | lia].
  - eauto.
Qed.

Lemma adds_bind {A B} (p : event -> bool) (m : M A) (f : A -> M B)
    (k1 k2 : nat) :
  adds p m k1 -> (forall a, adds p (f a) k2) -> adds p (m ≫= f) (k1 + k2).
Proof.
  intros Hm Hf st. unfold mbind, M_bind.
  destruct (Hm st) as (d1 & Hd1 & Hc1).
  destruct (m st) as [[a | e] st1]; simpl in *.
  - destruct (Hf a st1) as (d2 & Hd2 & Hc2).
    exists (d1 ++ d2). rewrite Hd2, Hd1, app_assoc.
    split; [reflexivity |]. intros b Hb.
    rewrite count_events_app, (Hc1 a eq_refl), (Hc2 b Hb). reflexivity.
  - exists d1. split; [assumption | discriminate].
Qed.

Lemma adds_bind_l {A B} (p : event -> bool) (m : M A) (f : A -> M B)
    (k : nat) :
  adds p m k -> (forall a, silent p (f a)) -> adds p (m ≫= f) k.
Proof.
  intros Hm Hf. replace k with (k + 0)%nat by lia.
  apply adds_bind; [assumption | intros a; apply silent_adds, Hf].
Qed.

Lemma adds_bind_r {A B} (p : event -> bool) (m : M A) (f : A -> M B)
    (k : nat) :
  silent p m -> (forall a, adds p (f a) k) -> adds p (m ≫= f) k.
Proof.
  intros Hm Hf. change k with (0 + k)%nat.
  apply adds_bind; [apply silent_adds, Hm | assumption].
Qed.

(** A pure step passes its value on, or ends the computation. *)
Lemma adds_bind_lift {A B} (p : event -> bool) (r : res A) (f : A -> M B)
    (k : nat) :
  (forall a, r = Ok a -> adds p (f a) k) -> adds p (lift r ≫= f) k.
Proof.
  intros Hf st. unfold mbind, M_bind, lift. destruct r as [a | e].
  - apply (Hf a eq_refl).
  - exists []. rewrite app_nil_r. split; [reflexivity | discriminate].
Qed.

Lemma silent_ret {A} (p : event -> bool) (a : A) : silent p (mret a : M A).
Proof. apply silent_unchanged. reflexivity. Qed.

Lemma silent_lift {A} (p : event -> bool) (r : res A) : silent p (lift r).
Proof. apply silent_unchanged. reflexivity. Qed.

Lemma silent_alloc (p : event -> bool) (toks : list Z) : silent p (alloc toks).
Proof. apply silent_unchanged. reflexivity. Qed.

Lemma silent_read (p : event -> bool) (l : loc) : silent p (read l).
Proof.
  apply silent_unchanged. intros st. unfold read.
  destruct (heap st !! l); reflexivity.
Qed.

Lemma silent_with_torch_gen {A} (p : event -> bool) (f : trng -> A * trng) :
  silent p (with_torch_gen f).
Proof.
  apply silent_unchanged. intros st.
  destruct (with_torch_gen_trace f st) as (a & _ & _ & Ht & _). exact Ht.
Qed.

Lemma silent_with_py_gen {A} (p : event -> bool) (f : prng -> A * prng) :
  silent p (with_py_gen f).
Proof.
  apply silent_unchanged. intros st. unfold with_py_gen.
  destruct (f (py_gen st)). reflexivity.
Qed.

Lemma silent_manual_seed (p : event -> bool) (s : Z) :
  silent p (manual_seed s).
Proof. apply silent_unchanged. reflexivity. Qed.

Lemma adds_emit (p : event -> bool) (ev : event) :
  adds p (emit ev) (if p ev then 1 else 0).
Proof.
  intros st. exists [ev]. split; [reflexivity |].
  intros _ _. simpl. lia.
Qed.

Lemma silent_emit (p : event -> bool) (ev : event) :
  p ev = false -> silent p (emit ev).
Proof.
  intros Hp st. exists [ev]. split; [reflexivity |].
  simpl. rewrite Hp. reflexivity.
Qed.

Lemma silent_for_each {A} (p : event -> bool) (l : list A)
    (body : A -> M unit) :
  (forall x, silent p (body x)) -> silent p (for_each l body).
Proof.
  intros Hb. induction l as [| x l IH]; simpl.
  - apply silent_ret.
  - apply silent_bind; [apply Hb | intros _; exact IH].
Qed.

Lemma silent_random_randint (p : event -> bool) (a b : Z) :
  silent p (random_randint a b).
Proof.
  unfold random_randint. destruct (b <? a).
  - apply silent_lift.
  - apply silent_with_py_gen.
Qed.

Lemma silent_torch_randint (p : event -> bool) (size low high : Z) :
  silent p (torch_randint size low high).
Proof.
  unfold torch_randint. destruct (_ || _).
  - apply silent_lift.
  - apply silent_with_torch_gen.
Qed.

Lemma silent_sample (p : event -> bool) (lnprobs : list R) (temperature : R) :
  silent p (sample lnprobs temperature).
Proof.
  unfold sample. destruct (Req_dec_T temperature 0).
  - apply silent_lift.
  - apply silent_bind; [apply silent_lift | intros scaled].
    apply silent_bind; [apply silent_lift | intros q].
    unfold categorical_sample. destruct q.
    + apply silent_lift.
    + apply silent_with_torch_gen.
Qed.

Lemma silent_sample_batch (p : event -> bool) (data : list Z)
    (len batch_size : Z) :
  silent p (sample_batch data len batch_size).
Proof.
  unfold sample_batch.
  apply silent_bind; [apply silent_torch_randint | intros starts].
  apply silent_bind; [apply silent_lift | intros inputs].
  apply silent_bind; [apply silent_lift | intros target].
  apply silent_ret.
Qed.

Lemma silent_print_chr (p : event -> bool) (c : Z) :
  ignores_printing p -> silent p (print_chr c).
Proof.
  intros (_ & _ & _ & Hp). unfold print_chr. destruct (_ && _).
  - apply silent_emit, Hp.
  - apply silent_lift.
Qed.

Lemma silent_sample_loop (p : event -> bool) model max_context temperature
    verbose n :
  ignores_printing p ->
  forall sequence,
    silent p (sample_loop model max_context temperature verbose n sequence).
Proof.
  intros Hp. induction n as [| n IH]; intros sequence; simpl.
  - apply silent_ret.
  - apply silent_bind; [apply silent_read | intros toks].
    apply silent_bind; [apply silent_lift | intros outputs].
    apply silent_bind; [apply silent_lift | intros output].
    apply silent_bind; [apply silent_lift | intros row].
    apply silent_bind; [apply silent_lift | intros lnprobs].
    apply silent_bind; [apply silent_sample | intros c].
    apply silent_bind.
    { destruct verbose; [apply silent_print_chr, Hp | apply silent_ret]. }
    intros _.
    apply silent_bind; [| intros sequence'; apply IH].
    apply silent_bind; [apply silent_read | intros; apply silent_alloc].
Qed.

Lemma silent_sample_sequence (p : event -> bool) model max_context
    temperature verbose seed len :
  ignores_printing p ->
  silent p (sample_sequence model max_context temperature verbose seed len).
Proof.
  intros Hp. pose proof Hp as (Hopen & Hclose & Hnl & Hchr).
  unfold sample_sequence.
  apply silent_bind.
  { apply silent_bind; [apply silent_read | intros; apply silent_alloc]. }
  intros sequence.
  apply silent_bind.
  { destruct verbose; [| apply silent_ret].
    apply silent_bind; [apply silent_emit, Hopen | intros _].
    apply silent_bind; [apply silent_read | intros seed_toks].
    apply silent_bind; [| intros _; apply silent_emit, Hclose].
    apply silent_for_each. intros c. apply silent_print_chr, Hp. }
  intros _.
  apply silent_bind; [apply silent_sample_loop, Hp | intros _].
  apply silent_bind; [apply silent_emit, Hnl | intros _].
  apply silent_ret.
Qed.

Lemma is_sample_call_ignores (i : Z) :
  ignores_printing (is_sample_call i) /\ ignores_training (is_sample_call i).
Proof. repeat split. Qed.

Lemma is_bits_report_ignores (i : Z) :
  ignores_printing (is_bits_report i) /\ ignores_training (is_bits_report i).
Proof. repeat split. Qed.

(** The evaluation block of iteration [j] makes the one call of
    [sample_sequence] labelled [j] ... *)
Lemma evaluation_sample_call (cfg : config) (data_test : list Z) (i j : Z)
    (loc : locals) :
  adds (is_sample_call i) (evaluation cfg data_test j loc)
    (if i =? j then 1%nat else 0%nat).
Proof.
  unfold evaluation.
  apply adds_bind_r; [apply silent_random_randint | intros seedfr].
  apply adds_bind_r; [apply silent_alloc | intros seed].
  apply adds_bind_l;
    [apply (adds_emit (is_sample_call i) (Call_sample_sequence j seedfr)) |].
  intros _.
  apply silent_bind;
    [apply silent_sample_sequence, is_sample_call_ignores | intros _].
  apply silent_bind; [apply silent_lift | intros bits].
  apply silent_bind; [apply silent_emit; reflexivity | intros _].
  apply silent_emit; reflexivity.
Qed.

(** ... and prints the one bits-per-byte line labelled [j]. *)
Lemma evaluation_bits_report (cfg : config) (data_test : list Z) (i j : Z)
    (loc : locals) :
  adds (is_bits_report i) (evaluation cfg data_test j loc)
    (if i =? j then 1%nat else 0%nat).
Proof.
  unfold evaluation.
  apply adds_bind_r; [apply silent_random_randint | intros seedfr].
  apply adds_bind_r; [apply silent_alloc | intros seed].
  apply adds_bind_r; [apply silent_emit; reflexivity | intros _].
  apply adds_bind_r;
    [apply silent_sample_sequence, is_bits_report_ignores | intros _].
  apply adds_bind_lift. intros bits _.
  apply adds_bind_l;
    [apply (adds_emit (is_bits_report i) (Print_bits_per_byte j bits)) |].
  intros _. apply silent_emit; reflexivity.
Qed.

Lemma test_now_Ok (cfg : config) (j : Z) (b : bool) :
  test_now cfg j = Ok b -> b = evaluation_due cfg j.
Proof.
  unfold test_now, evaluation_due, py_mod.
  destruct (j =? 0); simpl; [intros [= <-]; reflexivity |].
  destruct (test_every cfg =? 0); simpl; [discriminate |].
  intros [= <-]. reflexivity.
Qed.

Lemma silent_log_train_losses (p : event -> bool) (losses : list R)
    (f : nat -> R -> event) :
  (forall k l, p (f k l) = false) ->
  silent p (for_each (imap f losses) emit).
Proof.
  revert f. induction losses as [| l losses IH]; intros f Hf; simpl.
  - apply silent_ret.
  - apply silent_bind; [apply silent_emit, Hf | intros _].
    apply IH. intros k l'. apply Hf.
Qed.

Section Counting.
Variables (p : event -> bool) (i : Z) (cfg : config).
Hypothesis p_training : ignores_training p.
Hypothesis p_evaluation : forall data_test j loc,
  adds p (evaluation cfg data_test j loc) (if i =? j then 1%nat else 0%nat).

Lemma adds_iteration (data_train data_test : list Z) (j : Z) (loc : locals) :
  adds p (iteration cfg data_train data_test j loc)
    (if evaluation_due cfg j && (i =? j) then 1%nat else 0%nat).
Proof.
  destruct p_training as (_ & _ & Hloss & Hgrad & Hlr & _).
  unfold iteration.
  apply adds_bind_r; [apply silent_sample_batch | intros [source target]].
  apply adds_bind_lift. intros outputs _.
  apply adds_bind_lift. intros teacher _.
  destruct (distill_loss _ _ _ _) as [[loss teacher_loss] student_losses].
  destruct (compute_ema_losses _ _ _ _) as [losses ema].
  apply adds_bind_r.
  { apply silent_log_train_losses. intros k l. apply Hloss. }
  intros _.
  apply adds_bind_r; [apply silent_emit, Hgrad | intros _].
  apply adds_bind_r; [apply silent_emit, Hlr | intros _].
  apply adds_bind_lift. intros now Hnow.
  apply test_now_Ok in Hnow. rewrite <- Hnow.
  destruct now; simpl.
  - apply adds_bind_l; [apply p_evaluation | intros _; apply silent_ret].
  - apply silent_adds.
    apply silent_bind; [apply silent_ret | intros _; apply silent_ret].
Qed.

Lemma adds_for_range (body : Z -> locals -> M locals) (k : Z -> nat)
    (indices : list Z) :
  (forall j loc, adds p (body j loc) (k j)) ->
  forall loc, adds p (for_range indices body loc) (sum_list (map k indices)).
Proof.
  intros Hbody. induction indices as [| j rest IH]; intros loc; simpl.
  - apply silent_adds, silent_ret.
  - apply adds_bind; [apply Hbody | exact IH].
Qed.

Lemma silent_seeding : silent p (seeding cfg).
Proof.
  destruct p_training as (Hseed & _).
  unfold seeding. destruct (seed cfg <? 0).
  - apply silent_bind; [apply silent_random_randint | intros s].
    apply silent_bind; [apply silent_emit, Hseed | intros _].
    apply silent_ret.
  - apply silent_bind; [apply silent_manual_seed | intros _].
    apply silent_ret.
Qed.

Lemma adds_go (data : corpus) :
  adds p (go cfg data)
    (sum_list
       (map (fun j => if evaluation_due cfg j && (i =? j) then 1%nat else 0%nat)
          (py_range (num_batches cfg)))).
Proof.
  destruct p_training as (_ & Hinit & _).
  unfold go.
  apply adds_bind_r; [apply silent_seeding | intros s].
  apply adds_bind_r; [apply silent_emit, Hinit | intros _].
  destruct (if final cfg then _ else _) as [data_train data_test].
  apply adds_bind_r; [apply silent_with_torch_gen | intros m].
  apply adds_bind_r.
  { destruct (num_batches cfg <=? 0); [apply silent_lift | apply silent_ret]. }
  intros _.
  apply adds_for_range. intros j loc. apply adds_iteration.
Qed.

End Counting.

Lemma sum_indicator (g : Z -> bool) (i : Z) (indices : list Z) :
  NoDup indices ->
  sum_list (map (fun j => if g j && (i =? j) then 1%nat else 0%nat) indices)
  = (if decide (i ∈ indices) then if g i then 1 else 0 else 0)%nat.
Proof.
  induction 1 as [| j rest Hj Hnd IH]; simpl.
  - reflexivity.
  - rewrite IH.
    destruct (decide (i ∈ j :: rest)) as [Hin | Hout];
      destruct (decide (i ∈ rest)) as [Hin' | Hout'];
      destruct (Z.eqb_spec i j) as [-> | Hne];
      rewrite ?andb_true_r, ?andb_false_r; simpl;
      try lia; try contradiction;
      try (apply elem_of_cons in Hin as [? | ?]; contradiction);
      exfalso; apply Hout, elem_of_cons; auto.
Qed.

(** C5, amended: in a run of [go] that completes, every iteration [i] in
    [[1, num_batches)] with [i % test_every == 0] or
    [i == num_batches - 1] calls [sample_sequence] once and prints its
    bits-per-byte line once; iteration [0], which line 280 excludes, and
    the iterations that meet neither condition do neither. *)
Theorem go_evaluation_schedule (cfg : config) (data : corpus)
    (st st' : pstate) (loc : locals) (i : Z) :
  trace st = [] ->
  go cfg data st = (Ok loc, st') ->
  0 <= i < num_batches cfg ->
  count_events (is_sample_call i) (trace st')
  = (if evaluation_due cfg i then 1 else 0)%nat
  /\ count_events (is_bits_report i) (trace st')
     = (if evaluation_due cfg i then 1 else 0)%nat.
Proof.
  intros Hstart Hrun Hi.
  assert (Hin : i ∈ py_range (num_batches cfg))
    by (apply elem_of_seqZ; lia).
  split.
  - destruct (adds_go (is_sample_call i) i cfg
                (proj2 (is_sample_call_ignores i))
                (fun dt j l => evaluation_sample_call cfg dt i j l) data st)
      as (d & Hd & Hc).
    rewrite Hrun in Hd, Hc. simpl in Hd, Hc.
    rewrite Hstart in Hd. simpl in Hd. rewrite Hd, (Hc loc eq_refl).
    rewrite sum_indicator by apply NoDup_seqZ.
    rewrite decide_True by exact Hin. reflexivity.
  - destruct (adds_go (is_bits_report i) i cfg
                (proj2 (is_bits_report_ignores i))
                (fun dt j l => evaluation_bits_report cfg dt i j l) data st)
      as (d & Hd & Hc).
    rewrite Hrun in Hd, Hc. simpl in Hd, Hc.
    rewrite Hstart in Hd. simpl in Hd. rewrite Hd, (Hc loc eq_refl).
    rewrite sum_indicator by apply NoDup_seqZ.
    rewrite decide_True by exact Hin. reflexivity.
Qed.

(** ** Seeding *)

(** With an explicit seed, line 156 reseeds torch's generator and leaves
    the generator of [random] as the process found it. *)
Lemma seeding_explicit (cfg : config) (st : pstate) :
  0 <= seed cfg ->
  seeding cfg st
  = (Ok (seed cfg),
     PState (torch_manual_seed (seed cfg)) (py_gen st) (heap st) (trace st)).
Proof.
  intros Hs. unfold seeding.
  destruct (seed cfg <? 0) eqn:E; [apply Z.ltb_lt in E; lia |].
  reflexivity.
Qed.

(** Without one, lines 153-154 draw and print a seed, and no generator is
    seeded with it: torch's generator stays as the process found it. *)
Lemma seeding_unset (cfg : config) (st : pstate) :
  seed cfg < 0 ->
  exists s g,
    random_randint1 0 1000000 (py_gen st) = (s, g)
    /\ seeding cfg st
       = (Ok s, PState (torch_gen st) g (heap st)
                  (trace st ++ [Print_random_seed s])).
Proof.
  intros Hs. unfold seeding.
  apply Z.ltb_lt in Hs as ->.
  destruct (random_randint1 0 1000000 (py_gen st)) as [s g] eqn:E.
  exists s, g. split; [reflexivity |].
  unfold mbind, M_bind, random_randint, with_py_gen; simpl.
  rewrite E. reflexivity.
Qed.

(** X19: with an explicit seed, a run does not depend on the state in
    which it finds torch's generator: two runs that start with the same
    generator of [random], heap and output are the same run. *)
Lemma go_explicit_seed_torch (cfg : config) (data : corpus) (tg1 tg2 : trng)
    (pg : prng) (h : gmap loc (list Z)) (tr : list event) :
  0 <= seed cfg ->
  go cfg data (PState tg1 pg h tr) = go cfg data (PState tg2 pg h tr).
Proof.
  intros Hs. unfold go.
  rewrite !(bind_Ok _ _ _ _ _ (seeding_explicit cfg _ Hs)). reflexivity.
Qed.

(** ** The moving averages of a run *)

Lemma iteration_ema_finite (cfg : config) (data_train data_test : list Z)
    (i : Z) (loc loc' : locals) (st st' : pstate) :
  iteration cfg data_train data_test i loc st = (Ok loc', st') ->
  Forall (fun e => is_finite e = true) (ema_losses loc').
Proof.
  unfold iteration. intros Hrun.
  apply bind_Ok_inv in Hrun as ([source target] & st1 & _ & Hrun).
  apply bind_Ok_inv in Hrun as (outputs & st2 & _ & Hrun).
  apply bind_Ok_inv in Hrun as (teacher & st3 & _ & Hrun).
  destruct (distill_loss _ _ _ _) as [[loss teacher_loss] student_losses].
  pose proof (compute_ema_losses_finite outputs target (ema_losses loc)
                (99 / 100)) as Hfin.
  fold beta_default in Hfin.
  destruct (compute_ema_losses _ _ _ _) as [losses ema].
  apply bind_Ok_inv in Hrun as (? & st4 & _ & Hrun).
  apply bind_Ok_inv in Hrun as (? & st5 & _ & Hrun).
  apply bind_Ok_inv in Hrun as (? & st6 & _ & Hrun).
  apply bind_Ok_inv in Hrun as (now & st7 & _ & Hrun).
  apply bind_Ok_inv in Hrun as (? & st8 & _ & Hrun).
  injection Hrun as <- <-. exact Hfin.
Qed.

End Schedule.

(** Runs the first computation of a sequence on a concrete state. *)
Ltac run_bind :=
  match goal with
  | |- context [ mbind ?f ?m ?st ] =>
      let r := eval vm_compute in (m st) in
      match r with
      | (Ok ?a, ?st1) =>
          rewrite (bind_Ok m f st a st1) by (vm_compute; reflexivity)
      end
  end.

(** ** [sample_sequence] on the instance *)

(** C1 fails on the code: called on the seed [[65; 66; 67]] with
    [length = 2] at temperature [0.0], [sample_sequence] samples two
    tokens and builds the five-token sequence, which stays behind in the
    heap, but it returns the reference of the seed, whose three tokens are
    not the seed followed by the two sampled tokens. *)
Theorem sample_sequence_returns_bare_seed :
  exists (st' : pstate) (dropped : loc),
    sample_sequence tt 2 0%R false 1%positive 2 seed_state
    = (Ok 1%positive, st')
    /\ heap st' !! 1%positive = Some [65; 66; 67]
    /\ heap st' !! dropped = Some [65; 66; 67; 0; 0]
    /\ dropped <> 1%positive.
Proof.
  unfold sample_sequence.
  run_bind. run_bind.
  change (Z.to_nat 2) with 2%nat.
  erewrite bind_Ok.
  2: { erewrite sample_loop_greedy_step; try (vm_compute; reflexivity).
       erewrite sample_loop_greedy_step; try (vm_compute; reflexivity). }
  eexists. exists 4%positive.
  split; [reflexivity |].
  split; [vm_compute; reflexivity |].
  split; [vm_compute; reflexivity | discriminate].
Qed.

(** ** [go] on the instance *)

(** C5, as stated, fails: with [num_batches = 1] the iteration [0] is the
    final one and [0 % test_every == 0], yet the run, which completes,
    neither calls [sample_sequence] nor prints a bits-per-byte line for
    it. *)
Lemma go_skips_iteration_zero :
  is_Ok (go cfg_one data_run (start_state 0 0)).1 = true
  /\ 0 <= 0 < num_batches cfg_one
  /\ (0 mod test_every cfg_one = 0 \/ 0 = num_batches cfg_one - 1)
  /\ count_events (is_sample_call 0)
       (trace (go cfg_one data_run (start_state 0 0)).2) <> 1%nat
  /\ count_events (is_bits_report 0)
       (trace (go cfg_one data_run (start_state 0 0)).2) <> 1%nat.
Proof.
  split; [vm_compute; reflexivity |].
  split; [simpl; lia |].
  split; [left; reflexivity |].
  split; vm_compute; discriminate.
Qed.

Lemma go_evaluation_schedule_witness :
  count_events (is_sample_call 1)
    (trace (go cfg_run data_run (start_state 0 0)).2) = 1%nat
  /\ count_events (is_bits_report 1)
       (trace (go cfg_run data_run (start_state 0 0)).2) = 1%nat.
Proof.
  destruct (go cfg_run data_run (start_state 0 0)) as [[loc | e] st'] eqn:Hrun.
  - apply (go_evaluation_schedule cfg_run data_run (start_state 0 0) st' loc 1).
    + reflexivity.
    + exact Hrun.
    + simpl. lia.
  - assert (Hok : is_Ok (go cfg_run data_run (start_state 0 0)).1 = true)
      by (vm_compute; reflexivity).
    rewrite Hrun in Hok. discriminate.
Defined.

(** C6 fails on the code: two runs of [go] with the same explicit seed
    [1], which even find torch's generator in the same state, complete and
    draw different evaluation-seed indices, because these come from the
    generator of [random], which [go] never seeds. *)
Theorem go_same_seed_different_draws :
  seed cfg_run = 1
  /\ is_Ok (go cfg_run data_run (start_state 0 0)).1 = true
  /\ is_Ok (go cfg_run data_run (start_state 0 1)).1 = true
  /\ sample_calls (trace (go cfg_run data_run (start_state 0 0)).2)
     = [(1, 0); (2, 1)]
  /\ sample_calls (trace (go cfg_run data_run (start_state 0 1)).2)
     = [(1, 1); (2, 2)].
Proof. repeat split; vm_compute; reflexivity. Qed.

(** ** The other properties on the instance *)

Lemma sample_sequence_keeps_seed_witness :
  heap (sample_sequence tt 2 0%R false 1%positive 2 seed_state).2
    !! 1%positive = Some [65; 66; 67].
Proof.
  apply sample_sequence_keeps_seed. vm_compute. reflexivity.
Defined.

Lemma sample_batch_windows_witness :
  exists inputs target st',
    sample_batch [1; 2; 3; 4; 5; 6; 7; 8] 2 3 (start_state 0 0)
    = (Ok (inputs, target), st').
Proof.
  destruct (sample_batch_windows [1; 2; 3; 4; 5; 6; 7; 8] 2 3
              (start_state 0 0)) as [Hreturns _].
  - simpl. lia.
  - lia.
  - apply Hreturns. lia.
Defined.

Lemma sample_zero_temperature_witness :
  exists (i : nat) (x : R),
    sample [0%R; 1%R] 0 (start_state 0 0) = (Ok i, start_state 0 0)
    /\ [0%R; 1%R] !! i = Some x
    /\ (forall (j : nat) (y : R), [0%R; 1%R] !! j = Some y -> (y <= x)%R)
    /\ (forall st' : pstate, sample [0%R; 1%R] 0 st' = (Ok i, st')).
Proof.
  apply sample_zero_temperature. discriminate.
Defined.

Lemma ema_tracker_update_witness :
  (compute_ema_losses [[]] [] [PosInf] beta_default).2 !! 0%nat
  = Some (Finite 1)
  /\ Forall (fun e' => is_finite e' = true)
       (compute_ema_losses [[]] [] [PosInf] beta_default).2.
Proof.
  apply (ema_tracker_update [[]] [] [PosInf] 0 PosInf 1); reflexivity.
Defined.

(** * Further properties *)

(** ** [enwik8] *)

Section Enwik8.

Lemma slice_bound_nonneg (n i : Z) :
  0 <= i -> 0 <= n -> slice_bound n i = Z.min i n.
Proof.
  intros Hi Hn. unfold slice_bound.
  destruct (i <? 0) eqn:E; [apply Z.ltb_lt in E; lia | reflexivity].
Qed.

(** A slice with bounds that are not negative, in terms of [take] and
    [drop]. *)
Lemma py_slice_nonneg {A} (l : list A) (a b : Z) :
  0 <= a -> 0 <= b ->
  py_slice l a b
  = take (Z.to_nat (Z.min b (Z.of_nat (length l)))
          - Z.to_nat (Z.min a (Z.of_nat (length l))))
      (drop (Z.to_nat (Z.min a (Z.of_nat (length l)))) l).
Proof.
  intros Ha Hb. unfold py_slice.
  rewrite !slice_bound_nonneg by lia.
  f_equal. lia.
Qed.

Lemma np_split3_app {A} (X : list A) (a b : Z) :
  0 <= a <= b ->
  (np_split3 X a b).1.1 ++ (np_split3 X a b).1.2 ++ (np_split3 X a b).2 = X.
Proof.
  intros Hab. unfold np_split3; simpl.
  rewrite !py_slice_nonneg by lia.
  set (n := length X).
  rewrite (Z.min_l 0) by lia. rewrite Z.min_id.
  change (Z.to_nat 0) with 0%nat. rewrite drop_0, Nat.sub_0_r.
  set (i := Z.to_nat (Z.min a (Z.of_nat n))).
  set (j := Z.to_nat (Z.min b (Z.of_nat n))).
  assert (Hij : (i <= j <= n)%nat) by (unfold i, j; lia).
  rewrite Nat2Z.id.
  rewrite (take_ge (drop j X)) by (rewrite length_drop; fold n; lia).
  rewrite app_assoc, take_take_drop.
  replace (i + (j - i))%nat with j by lia.
  apply take_drop.
Qed.

(** X1: when the training and validation sizes are not negative, the
    three splits of [enwik8], one after the other, are the bytes read
    from the file: no byte is lost, repeated or reordered. *)
Theorem enwik8_partition (file : list Byte.byte) (n_train n_valid n_test : Z) :
  0 <= n_train -> 0 <= n_valid ->
  trX (enwik8 file n_train n_valid n_test)
  ++ vaX (enwik8 file n_train n_valid n_test)
  ++ teX (enwik8 file n_train n_valid n_test)
  = map uint8 (file_read file (n_train + n_valid + n_test)).
Proof.
  intros Ht Hv. unfold enwik8.
  pose proof (np_split3_app
                (map uint8 (file_read file (n_train + n_valid + n_test)))
                n_train (n_train + n_valid)) as Happ.
  destruct (np_split3 _ _ _) as [[tr va] te]. simpl in *.
  apply Happ. lia.
Qed.

(** X2: when the file holds at least [n_train + n_valid + n_test] bytes
    and the sizes are not negative, the splits have exactly the sizes
    asked for, and the training split is the head of the file. *)
Theorem enwik8_sizes (file : list Byte.byte) (n_train n_valid n_test : Z) :
  0 <= n_train -> 0 <= n_valid -> 0 <= n_test ->
  n_train + n_valid + n_test <= Z.of_nat (length file) ->
  Z.of_nat (length (trX (enwik8 file n_train n_valid n_test))) = n_train
  /\ Z.of_nat (length (vaX (enwik8 file n_train n_valid n_test))) = n_valid
  /\ Z.of_nat (length (teX (enwik8 file n_train n_valid n_test))) = n_test
  /\ trX (enwik8 file n_train n_valid n_test)
     = map uint8 (take (Z.to_nat n_train) file).
Proof.
  intros Ht Hv Hte Hlen. unfold enwik8, np_split3, file_read.
  destruct (n_train + n_valid + n_test <? 0) eqn:E;
    [apply Z.ltb_lt in E; lia |].
  simpl.
  set (X := map uint8 (take (Z.to_nat (n_train + n_valid + n_test)) file)).
  assert (HX : Z.of_nat (length X) = n_train + n_valid + n_test).
  { unfold X. rewrite length_map, length_take. lia. }
  rewrite !py_slice_nonneg by lia. rewrite HX.
  rewrite !length_take, !length_drop.
  repeat split; try lia.
  rewrite (Z.min_l 0) by lia. change (Z.to_nat 0) with 0%nat.
  rewrite drop_0, Nat.sub_0_r. unfold X.
  rewrite <- fmap_take, take_take. f_equal. f_equal. lia.
Qed.

(** X3: a file of at most [n_train] bytes is not refused: all its bytes
    go to the training split, and the validation and test splits are
    empty. *)
Theorem enwik8_short_file (file : list Byte.byte) (n_train n_valid n_test : Z) :
  0 <= n_valid -> 0 <= n_test ->
  Z.of_nat (length file) <= n_train ->
  enwik8 file n_train n_valid n_test = Corpus (map uint8 file) [] [].
Proof.
  intros Hv Hte Hlen. unfold enwik8, np_split3, file_read.
  destruct (n_train + n_valid + n_test <? 0) eqn:E;
    [apply Z.ltb_lt in E; lia |].
  rewrite (take_ge file) by lia.
  simpl. rewrite !py_slice_nonneg by lia.
  rewrite length_map.
  rewrite (Z.min_l 0) by lia.
  rewrite !(Z.min_r _ (Z.of_nat (length file))) by lia.
  change (Z.to_nat 0) with 0%nat. rewrite drop_0, Nat.sub_0_r, Nat2Z.id.
  rewrite Nat.sub_diag, take_0.
  rewrite take_ge by (rewrite length_map; lia). reflexivity.
Qed.

Lemma uint8_range (b : Byte.byte) : 0 <= uint8 b < NUM_TOKENS.
Proof.
  unfold uint8, NUM_TOKENS. pose proof (Byte.to_N_bounded b). lia.
Qed.

Lemma py_slice_Forall {A} (P : A -> Prop) (l : list A) (a b : Z) :
  Forall P l -> Forall P (py_slice l a b).
Proof. intros Hl. unfold py_slice. apply Forall_take, Forall_drop, Hl. Qed.

(** X4: whatever the file and the sizes, every token of every split is a
    valid token identifier, in [[0, NUM_TOKENS)]. *)
Theorem enwik8_tokens (file : list Byte.byte) (n_train n_valid n_test : Z) :
  Forall (fun t => 0 <= t < NUM_TOKENS) (trX (enwik8 file n_train n_valid n_test))
  /\ Forall (fun t => 0 <= t < NUM_TOKENS)
       (vaX (enwik8 file n_train n_valid n_test))
  /\ Forall (fun t => 0 <= t < NUM_TOKENS)
       (teX (enwik8 file n_train n_valid n_test)).
Proof.
  unfold enwik8, np_split3; simpl.
  assert (HX : Forall (fun t => 0 <= t < NUM_TOKENS)
                 (map uint8 (file_read file (n_train + n_valid + n_test)))).
  { apply Forall_fmap, Forall_forall. intros b _. apply uint8_range. }
  repeat split; apply py_slice_Forall, HX.
Qed.

End Enwik8.

Lemma enwik8_partition_witness :
  trX (enwik8 [Byte.x01; Byte.x02; Byte.x03; Byte.x04; Byte.x05] 2 2 1)
  ++ vaX (enwik8 [Byte.x01; Byte.x02; Byte.x03; Byte.x04; Byte.x05] 2 2 1)
  ++ teX (enwik8 [Byte.x01; Byte.x02; Byte.x03; Byte.x04; Byte.x05] 2 2 1)
  = map uint8
      (file_read [Byte.x01; Byte.x02; Byte.x03; Byte.x04; Byte.x05] (2 + 2 + 1)).
Proof. apply enwik8_partition; lia. Defined.

Lemma enwik8_sizes_witness :
  Z.of_nat (length (trX (enwik8 [Byte.x01; Byte.x02; Byte.x03; Byte.x04;
                                 Byte.x05; Byte.x06] 2 2 1))) = 2
  /\ Z.of_nat (length (vaX (enwik8 [Byte.x01; Byte.x02; Byte.x03; Byte.x04;
                                    Byte.x05; Byte.x06] 2 2 1))) = 2
  /\ Z.of_nat (length (teX (enwik8 [Byte.x01; Byte.x02; Byte.x03; Byte.x04;
                                    Byte.x05; Byte.x06] 2 2 1))) = 1
  /\ trX (enwik8 [Byte.x01; Byte.x02; Byte.x03; Byte.x04;
                  Byte.x05; Byte.x06] 2 2 1)
     = map uint8 (take (Z.to_nat 2)
                    [Byte.x01; Byte.x02; Byte.x03; Byte.x04; Byte.x05;
                     Byte.x06]).
Proof. apply enwik8_sizes; simpl; lia. Defined.

Lemma enwik8_short_file_witness :
  enwik8 [Byte.x01; Byte.x02; Byte.x03] 4 2 2
  = Corpus (map uint8 [Byte.x01; Byte.x02; Byte.x03]) [] [].
Proof. apply enwik8_short_file; simpl; lia. Defined.

(** ** More on [sample] *)

Section SampleMore.
Context `{RS : RandomSources}.
#[local] Open Scope R_scope.

(** X7: on an empty vector [sample] raises and leaves the interpreter
    state as it found it: an [IndexError] at temperature [0.0], from
    [argmax], and a [ValueError] at every other temperature, from
    [Categorical]. *)
Theorem sample_empty (temperature : R) (st : pstate) :
  sample [] 0 st = (Raise IndexError, st)
  /\ (temperature <> 0 -> sample [] temperature st = (Raise ValueError, st)).
Proof.
  split.
  - rewrite sample_greedy. reflexivity.
  - intros HT. unfold sample.
    destruct (Req_dec_T temperature 0) as [He | _]; [contradiction |].
    reflexivity.
Qed.

End SampleMore.

Lemma sample_empty_witness :
  sample [] (1 / 2)%R (start_state 0 0) = (Raise ValueError, start_state 0 0).
Proof.
  destruct (sample_empty (1 / 2)%R (start_state 0 0)) as [_ Hhot].
  apply Hhot. lra.
Defined.

(** ** More on [sample_batch] *)

Section SampleBatchMore.
Context `{RS : RandomSources}.

Lemma torch_randint_frame (size low high : Z) (st : pstate) :
  heap (torch_randint size low high st).2 = heap st
  /\ trace (torch_randint size low high st).2 = trace st
  /\ py_gen (torch_randint size low high st).2 = py_gen st.
Proof.
  unfold torch_randint. destruct (_ || _); [auto |].
  destruct (with_torch_gen_trace
              (randint_draws low high (Z.to_nat size)) st)
    as (a & _ & Hh & Ht & Hp). auto.
Qed.

(** What a call of [sample_batch] that returns has done. *)
Lemma sample_batch_Ok_inv (data : list Z) (len batch_size : Z)
    (st st' : pstate) (inputs target : list (list Z)) :
  sample_batch data len batch_size st = (Ok (inputs, target), st') ->
  exists starts : list Z,
    Z.of_nat (length starts) = batch_size
    /\ Forall (fun s => 0 <= s < Z.of_nat (length data) - len - 1) starts
    /\ inputs = map (fun s => py_slice data s (s + len)) starts
    /\ target = map (fun s => py_slice data (s + 1) (s + len + 1)) starts
    /\ heap st' = heap st /\ trace st' = trace st /\ py_gen st' = py_gen st.
Proof.
  intros Hrun. unfold sample_batch in Hrun.
  apply bind_Ok_inv in Hrun as (starts & st1 & Hdraw & Hrun).
  apply bind_Ok_inv in Hrun as (inputs' & st2 & Hin & Hrun).
  apply bind_Ok_inv in Hrun as (target' & st3 & Htg & Hrun).
  apply lift_Ok_inv in Hin as [Hin ->].
  apply lift_Ok_inv in Htg as [Htg ->].
  apply torch_cat_rows_Ok_inv in Hin, Htg. subst inputs' target'.
  injection Hrun as <- <- <-.
  pose proof (torch_randint_frame batch_size 0
                (Z.of_nat (length data) - len - 1) st) as Hframe.
  rewrite Hdraw in Hframe. simpl in Hframe.
  apply torch_randint_Ok_inv in Hdraw as (_ & _ & Hn & Hrange).
  exists starts. tauto.
Qed.

(** X9: [sample_batch] refuses a source that is too short for one window
    and its target ([len(data) <= length + 1]) and a negative batch size:
    [torch.randint] raises a [RuntimeError] and the interpreter state, the
    generators included, is left as it was found.  With [batch_size = 0]
    it does not return either: [torch.cat] has nothing to stack. *)
Theorem sample_batch_rejects (data : list Z) (len batch_size : Z)
    (st : pstate) :
  (Z.of_nat (length data) <= len + 1 \/ batch_size < 0 ->
     sample_batch data len batch_size st = (Raise RuntimeError, st))
  /\ (batch_size = 0 ->
        is_Ok (sample_batch data len batch_size st).1 = false).
Proof.
  assert (Hraise : Z.of_nat (length data) <= len + 1 \/ batch_size < 0 ->
                   sample_batch data len batch_size st
                   = (Raise RuntimeError, st)).
  { intros Hbad. unfold sample_batch. apply bind_Raise. unfold torch_randint.
    destruct (Z_lt_le_dec batch_size 0) as [Hneg | Hnn].
    - apply Z.ltb_lt in Hneg as ->. reflexivity.
    - replace (Z.of_nat (length data) - len - 1 <=? 0) with true
        by (symmetry; apply Z.leb_le; lia).
      rewrite orb_true_r. reflexivity. }
  split; [exact Hraise |].
  intros ->.
  destruct (Z_le_gt_dec (Z.of_nat (length data)) (len + 1)) as [Hshort | Hlong].
  { rewrite Hraise by auto. reflexivity. }
  unfold sample_batch.
  erewrite bind_Ok; cycle 1.
  { unfold torch_randint.
    replace (Z.of_nat (length data) - len - 1 <=? 0) with false
      by (symmetry; apply Z.leb_gt; lia).
    reflexivity. }
  reflexivity.
Qed.

(** X10: when the length is not negative, a batch that [sample_batch]
    returns has [batch_size] rows of [length] tokens on either side, and
    every target row is its input row moved one token on:
    [target_row[c] = input_row[c + 1]] for [c + 1 < length].  The call
    advances torch's generator only: heap, output and the generator of
    [random] are as before. *)
Theorem sample_batch_shape (data : list Z) (len batch_size : Z)
    (st st' : pstate) (inputs target : list (list Z)) :
  0 <= len ->
  sample_batch data len batch_size st = (Ok (inputs, target), st') ->
  Z.of_nat (length inputs) = batch_size
  /\ Z.of_nat (length target) = batch_size
  /\ Forall (fun row => length row = Z.to_nat len) inputs
  /\ Forall (fun row => length row = Z.to_nat len) target
  /\ (forall (r c : nat) (input_row target_row : list Z),
        inputs !! r = Some input_row ->
        target !! r = Some target_row ->
        (S c < Z.to_nat len)%nat ->
        is_Some (target_row !! c)
        /\ target_row !! c = input_row !! S c)
  /\ heap st' = heap st /\ trace st' = trace st /\ py_gen st' = py_gen st.
Proof.
  intros Hlen Hrun.
  apply sample_batch_Ok_inv in Hrun
    as (starts & Hn & Hrange & -> & -> & Hh & Ht & Hp).
  rewrite !length_map.
  split; [exact Hn |]. split; [exact Hn |].
  split.
  { apply Forall_fmap. eapply Forall_impl; [exact Hrange |].
    intros s Hs; simpl in *. apply py_slice_window_length; lia. }
  split.
  { apply Forall_fmap. eapply Forall_impl; [exact Hrange |].
    intros s Hs; simpl in *.
    replace (s + len + 1) with (s + 1 + len) by lia.
    apply py_slice_window_length; lia. }
  split; [| auto].
  intros r c input_row target_row Hin Htg Hc.
  rewrite list_lookup_fmap in Hin, Htg.
  destruct (starts !! r) as [s |] eqn:Hs; [| discriminate].
  rewrite Forall_lookup in Hrange. specialize (Hrange _ _ Hs).
  simpl in Hrange, Hin, Htg.
  injection Hin as <-. injection Htg as <-.
  replace (s + len + 1) with (s + 1 + len) by lia.
  rewrite !py_slice_window by lia.
  rewrite !lookup_take_lt by lia. rewrite !lookup_drop.
  replace (Z.to_nat (s + 1) + c)%nat with (Z.to_nat s + S c)%nat by lia.
  split; [| reflexivity].
  apply lookup_lt_is_Some. lia.
Qed.

End SampleBatchMore.

Lemma sample_batch_rejects_witness :
  sample_batch [1; 2; 3] 2 4 (start_state 0 0)
  = (Raise RuntimeError, start_state 0 0)
  /\ is_Ok (sample_batch [1; 2; 3; 4; 5] 2 0 (start_state 0 0)).1 = false.
Proof.
  split.
  - destruct (sample_batch_rejects [1; 2; 3] 2 4 (start_state 0 0))
      as [Hraise _].
    apply Hraise. left. simpl. lia.
  - destruct (sample_batch_rejects [1; 2; 3; 4; 5] 2 0 (start_state 0 0))
      as [_ Hzero].
    apply Hzero. reflexivity.
Defined.

Lemma sample_batch_shape_witness :
  Z.of_nat (length [[1; 2]; [2; 3]; [3; 4]]) = 3
  /\ Z.of_nat (length [[2; 3]; [3; 4]; [4; 5]]) = 3
  /\ Forall (fun row => length row = Z.to_nat 2) [[1; 2]; [2; 3]; [3; 4]]
  /\ Forall (fun row => length row = Z.to_nat 2) [[2; 3]; [3; 4]; [4; 5]]
  /\ (forall (r c : nat) (input_row target_row : list Z),
        [[1; 2]; [2; 3]; [3; 4]] !! r = Some input_row ->
        [[2; 3]; [3; 4]; [4; 5]] !! r = Some target_row ->
        (S c < Z.to_nat 2)%nat ->
        is_Some (target_row !! c)
        /\ target_row !! c = input_row !! S c)
  /\ heap (PState 3 0 ∅ []) = heap (start_state 0 0)
  /\ trace (PState 3 0 ∅ []) = trace (start_state 0 0)
  /\ py_gen (PState 3 0 ∅ []) = py_gen (start_state 0 0).
Proof.
  apply (sample_batch_shape [1; 2; 3; 4; 5; 6; 7; 8] 2 3 (start_state 0 0)).
  - lia.
  - vm_compute. reflexivity.
Defined.

(** ** More on [sample_sequence] *)

Section SampleSequenceMore.
Context `{LN : Learner}.

Lemma sample_Ok_frame (lnprobs : list R) (temperature : R) (st st1 : pstate)
    (c : nat) :
  sample lnprobs temperature st = (Ok c, st1) ->
  heap st1 = heap st /\ trace st1 = trace st /\ py_gen st1 = py_gen st
  /\ (temperature = 0%R -> st1 = st).
Proof.
  unfold sample. destruct (Req_dec_T temperature 0) as [He | Hne].
  - intros [_ ->]%lift_Ok_inv. auto.
  - intros Hrun.
    apply bind_Ok_inv in Hrun as (scaled & st2 & [_ ->]%lift_Ok_inv & Hrun).
    apply bind_Ok_inv in Hrun as (p & st3 & [_ ->]%lift_Ok_inv & Hrun).
    unfold categorical_sample in Hrun. destruct p as [| q p].
    + apply lift_Ok_inv in Hrun as [? _]. discriminate.
    + destruct (with_torch_gen_trace (torch_multinomial1 (q :: p)) st)
        as (a & _ & Hh & Ht & Hp).
      rewrite Hrun in Hh, Ht, Hp. simpl in *.
      repeat split; try assumption. intros ?; contradiction.
Qed.

Lemma alloc_Ok_inv (toks : list Z) (st st' : pstate) (l : loc) :
  alloc toks st = (Ok l, st') ->
  heap st !! l = None
  /\ st' = PState (torch_gen st) (py_gen st) (<[l := toks]> (heap st))
             (trace st).
Proof.
  unfold alloc. intros [= <- <-]. split; [| reflexivity].
  apply not_elem_of_dom, is_fresh.
Qed.

Lemma read_Ok_inv (l : loc) (st st' : pstate) (toks : list Z) :
  read l st = (Ok toks, st') -> heap st !! l = Some toks /\ st' = st.
Proof.
  unfold read. destruct (heap st !! l); [| discriminate].
  intros [= <- <-]. auto.
Qed.

Lemma print_chr_Ok_inv (c : Z) (st st' : pstate) :
  print_chr c st = (Ok tt, st') ->
  st' = PState (torch_gen st) (py_gen st) (heap st) (trace st ++ [Print_chr c]).
Proof.
  unfold print_chr. destruct (_ && _).
  - intros [= <-]. reflexivity.
  - intros [? _]%lift_Ok_inv. discriminate.
Qed.

Lemma for_each_print_Ok_inv (toks : list Z) (st st' : pstate) :
  for_each toks print_chr st = (Ok tt, st') ->
  st' = PState (torch_gen st) (py_gen st) (heap st)
          (trace st ++ map Print_chr toks).
Proof.
  revert st. induction toks as [| c toks IH]; intros st; simpl.
  - intros [= <-]. rewrite app_nil_r. destruct st; reflexivity.
  - intros Hrun.
    apply bind_Ok_inv in Hrun as ([] & st1 & Hc & Hrun).
    apply print_chr_Ok_inv in Hc as ->.
    apply IH in Hrun as ->. simpl.
    rewrite <- app_assoc. reflexivity.
Qed.

(** What the sampling loop has done when it returns: it has appended
    one sampled token per iteration, each time to a fresh tensor, and
    printed them if asked to. *)
Lemma sample_loop_Ok_inv (m : learner) (max_context : Z) (temperature : R)
    (verbose : bool) (n : nat) :
  forall (sequence : loc) (st : pstate) (s' : loc) (st' : pstate)
         (toks : list Z),
    heap st !! sequence = Some toks ->
    sample_loop m max_context temperature verbose n sequence st
    = (Ok s', st') ->
    exists cs : list nat,
      length cs = n
      /\ heap st' !! s' = Some (toks ++ map Z.of_nat cs)
      /\ (s' = sequence \/ heap st !! s' = None)
      /\ (forall l v, heap st !! l = Some v -> heap st' !! l = Some v)
      /\ trace st'
         = trace st
           ++ (if verbose
               then map (fun c => Print_chr (Z.max 32 (Z.of_nat c))) cs
               else [])
      /\ py_gen st' = py_gen st
      /\ (temperature = 0%R -> torch_gen st' = torch_gen st).
Proof.
  induction n as [| n IH]; intros sequence st s' st' toks Hseq Hrun.
  - simpl in Hrun. injection Hrun as <- <-.
    exists []. destruct verbose; simpl; rewrite !app_nil_r;
      repeat split; auto.
  - simpl in Hrun.
    apply bind_Ok_inv in Hrun as (toks' & st0 & Hread & Hrun).
    apply read_Ok_inv in Hread as [Hread ->].
    rewrite Hseq in Hread. injection Hread as <-.
    apply bind_Ok_inv in Hrun as (outputs & ? & [_ ->]%lift_Ok_inv & Hrun).
    apply bind_Ok_inv in Hrun as (output & ? & [_ ->]%lift_Ok_inv & Hrun).
    apply bind_Ok_inv in Hrun as (row & ? & [_ ->]%lift_Ok_inv & Hrun).
    apply bind_Ok_inv in Hrun as (lnprobs & ? & [_ ->]%lift_Ok_inv & Hrun).
    apply bind_Ok_inv in Hrun as (c & st1 & Hsample & Hrun).
    apply sample_Ok_frame in Hsample as (Hh1 & Ht1 & Hp1 & Hg1).
    apply bind_Ok_inv in Hrun as ([] & st2 & Hprint & Hrun).
    assert (Hst2 : heap st2 = heap st /\ py_gen st2 = py_gen st
                   /\ torch_gen st2 = torch_gen st1
                   /\ trace st2
                      = trace st
                        ++ (if verbose
                            then [Print_chr (Z.max 32 (Z.of_nat c))]
                            else [])).
    { destruct verbose.
      - apply print_chr_Ok_inv in Hprint as ->. simpl.
        rewrite Ht1. auto.
      - injection Hprint as <-. rewrite app_nil_r. auto. }
    destruct Hst2 as (Hh2 & Hp2 & Hg2 & Ht2).
    apply bind_Ok_inv in Hrun as (l1 & st3 & Hcat & Hrun).
    unfold torch_cat1 in Hcat.
    apply bind_Ok_inv in Hcat as (toks2 & ? & Hread2 & Halloc).
    apply read_Ok_inv in Hread2 as [Hread2 ->].
    rewrite Hh2, Hseq in Hread2. injection Hread2 as <-.
    apply alloc_Ok_inv in Halloc as [Hfresh ->].
    rewrite Hh2 in Hfresh.
    apply IH with (toks := toks ++ [Z.of_nat c]) in Hrun;
      [| simpl; apply lookup_insert_eq].
    destruct Hrun as (cs & Hlen & Hs' & Hwhere & Hkeep & Htr & Hpy & Htg).
    simpl in *.
    exists (c :: cs). simpl.
    split; [lia |].
    split; [rewrite Hs', <- app_assoc; reflexivity |].
    split.
    { right. destruct Hwhere as [-> | Hnone]; [exact Hfresh |].
      apply lookup_insert_None in Hnone as [Hnone _].
      rewrite Hh2 in Hnone. exact Hnone. }
    split.
    { intros l v Hl. apply Hkeep. rewrite lookup_insert_ne.
      - rewrite Hh2. exact Hl.
      - intros <-. rewrite Hl in Hfresh. discriminate. }
    split.
    { rewrite Htr, Ht2, <- app_assoc. f_equal.
      destruct verbose; reflexivity. }
    split; [congruence |].
    intros HT. rewrite (Htg HT), Hg2, (Hg1 HT). reflexivity.
Qed.

Lemma sample_sequence_Ok_inv (m : learner) (max_context : Z)
    (temperature : R) (verbose : bool) (seed : loc) (len : Z)
    (st st' : pstate) (r : loc) :
  sample_sequence m max_context temperature verbose seed len st
  = (Ok r, st') ->
  exists (toks : list Z) (cs : list nat) (l : loc),
    heap st !! seed = Some toks
    /\ length cs = Z.to_nat len
    /\ l <> seed
    /\ heap st' !! l = Some (toks ++ map Z.of_nat cs)
    /\ trace st'
       = trace st
         ++ (if verbose
             then Print_open :: map Print_chr toks ++ [Print_close]
             else [])
         ++ (if verbose
             then map (fun c => Print_chr (Z.max 32 (Z.of_nat c))) cs
             else [])
         ++ [Print_newline]
    /\ py_gen st' = py_gen st
    /\ (temperature = 0%R -> torch_gen st' = torch_gen st).
Proof.
  intros Hrun. unfold sample_sequence in Hrun.
  apply bind_Ok_inv in Hrun as (sequence & st1 & Hclone & Hrun).
  unfold clone in Hclone.
  apply bind_Ok_inv in Hclone as (toks & ? & Hread & Halloc).
  apply read_Ok_inv in Hread as [Hseed ->].
  apply alloc_Ok_inv in Halloc as [Hfresh ->].
  apply bind_Ok_inv in Hrun as ([] & st2 & Hprint & Hrun).
  assert (Hst2 : st2 = PState (torch_gen st) (py_gen st)
                         (<[sequence := toks]> (heap st))
                         (trace st
                          ++ (if verbose
                              then Print_open :: map Print_chr toks
                                   ++ [Print_close]
                              else []))).
  { destruct verbose.
    - apply bind_Ok_inv in Hprint as ([] & ? & [= <-] & Hprint).
      apply bind_Ok_inv in Hprint as (toks' & ? & Hread & Hprint).
      apply read_Ok_inv in Hread as [Hread ->]. simpl in Hread.
      rewrite lookup_insert_ne in Hread
        by (intros <-; rewrite Hseed in Hfresh; discriminate).
      rewrite Hseed in Hread. injection Hread as <-.
      apply bind_Ok_inv in Hprint as ([] & ? & Hchars & [= <-]).
      apply for_each_print_Ok_inv in Hchars as ->. simpl.
      f_equal. rewrite <- !app_assoc. reflexivity.
    - injection Hprint as <-. rewrite app_nil_r. reflexivity. }
  subst st2.
  apply bind_Ok_inv in Hrun as (s' & st3 & Hloop & Hrun).
  apply bind_Ok_inv in Hrun as ([] & ? & [= <-] & [= <- <-]).
  apply sample_loop_Ok_inv with (toks := toks) in Hloop;
    [| simpl; apply lookup_insert_eq].
  destruct Hloop as (cs & Hlen & Hs' & Hwhere & _ & Htr & Hpy & Htg).
  simpl in *.
  exists toks, cs, s'.
  split; [exact Hseed |]. split; [exact Hlen |].
  split.
  { intros ->. destruct Hwhere as [-> | Hnone].
    - rewrite Hseed in Hfresh. discriminate.
    - apply lookup_insert_None in Hnone as [Hnone _].
      rewrite Hseed in Hnone. discriminate. }
  split; [exact Hs' |].
  split; [rewrite Htr, <- !app_assoc; reflexivity |].
  split; assumption.
Qed.


(** X12: what a call that returns has printed.  Without [verbose], one
    newline and nothing else.  With it: an opening bracket, the seed
    tokens as characters, a closing bracket, one character per sampled
    token, none below [32], then the newline. *)
Theorem sample_sequence_output (m : learner) (max_context : Z)
    (temperature : R) (verbose : bool) (seed : loc) (len : Z)
    (st st' : pstate) (r : loc) :
  sample_sequence m max_context temperature verbose seed len st
  = (Ok r, st') ->
  exists toks sampled : list Z,
    heap st !! seed = Some toks
    /\ length sampled = Z.to_nat len
    /\ Forall (fun c => 32 <= c) sampled
    /\ trace st'
       = trace st
         ++ (if verbose
             then [Print_open] ++ map Print_chr toks ++ [Print_close]
                  ++ map Print_chr sampled
             else [])
         ++ [Print_newline].
Proof.
  intros Hrun.
  apply sample_sequence_Ok_inv in Hrun
    as (toks & cs & l & Hseed & Hlen & _ & _ & Htr & _).
  exists toks, (map (fun c => Z.max 32 (Z.of_nat c)) cs).
  rewrite length_map.
  split; [exact Hseed |]. split; [exact Hlen |].
  split.
  { apply Forall_fmap, Forall_forall. intros c _; simpl. lia. }
  rewrite Htr. destruct verbose; simpl; [| reflexivity].
  rewrite <- !app_assoc. simpl. rewrite map_map. reflexivity.
Qed.

(** X13: a call that returns has not drawn from the generator of
    [random], and at temperature [0.0] it has not drawn from torch's
    generator either. *)
Theorem sample_sequence_randomness (m : learner) (max_context : Z)
    (temperature : R) (verbose : bool) (seed : loc) (len : Z)
    (st st' : pstate) (r : loc) :
  sample_sequence m max_context temperature verbose seed len st
  = (Ok r, st') ->
  py_gen st' = py_gen st
  /\ (temperature = 0%R -> torch_gen st' = torch_gen st).
Proof.
  intros Hrun.
  apply sample_sequence_Ok_inv in Hrun
    as (toks & cs & l & _ & _ & _ & _ & _ & Hpy & Htg).
  auto.
Qed.

(** X14: the window of line 103, [sequence[-max_context:]].  For
    [max_context >= 1] it is the last [max_context] tokens of the
    sequence, or all of them when there are fewer; for
    [max_context = 0] it is the whole sequence, not an empty one. *)
Theorem context_window (toks : list Z) (max_context : Z) :
  (1 <= max_context ->
     py_slice_from toks (- max_context)
     = drop (length toks - Z.to_nat max_context) toks
     /\ Z.of_nat (length (py_slice_from toks (- max_context)))
        = Z.min max_context (Z.of_nat (length toks)))
  /\ (max_context = 0 -> py_slice_from toks (- max_context) = toks).
Proof.
  unfold py_slice_from, py_slice, slice_bound. split.
  - intros Hmc.
    destruct (- max_context <? 0) eqn:E1; [| apply Z.ltb_ge in E1; lia].
    destruct (Z.of_nat (length toks) <? 0) eqn:E2;
      [apply Z.ltb_lt in E2; lia |].
    rewrite Z.min_id.
    assert (Hdrop : Z.to_nat (Z.max 0 (- max_context + Z.of_nat (length toks)))
                    = (length toks - Z.to_nat max_context)%nat) by lia.
    rewrite Hdrop.
    rewrite take_ge by (rewrite length_drop; lia).
    split; [reflexivity |]. rewrite length_drop. lia.
  - intros ->. simpl.
    destruct (Z.of_nat (length toks) <? 0) eqn:E2;
      [apply Z.ltb_lt in E2; lia |].
    rewrite Z.min_id, Z.min_l by lia. simpl. rewrite drop_0.
    apply take_ge. lia.
Qed.

End SampleSequenceMore.

(** ** More on [go] *)

Section GoMore.
Context `{LN : Learner}.

Lemma iteration_Ok_inv (cfg : config) (data_train data_test : list Z)
    (i : Z) (loc loc' : locals) (st st' : pstate) :
  iteration cfg data_train data_test i loc st = (Ok loc', st') ->
  instances_seen loc' = instances_seen loc + batch_size cfg
  /\ exists b, test_now cfg i = Ok b.
Proof.
  unfold iteration. intros Hrun.
  apply bind_Ok_inv in Hrun as ([source target] & st1 & Hbatch & Hrun).
  apply sample_batch_Ok_inv in Hbatch as (starts & Hn & _ & -> & _).
  apply bind_Ok_inv in Hrun as (outputs & st2 & _ & Hrun).
  apply bind_Ok_inv in Hrun as (teacher & st3 & _ & Hrun).
  destruct (distill_loss _ _ _ _) as [[loss teacher_loss] student_losses].
  destruct (compute_ema_losses _ _ _ _) as [losses ema].
  apply bind_Ok_inv in Hrun as (? & st4 & _ & Hrun).
  apply bind_Ok_inv in Hrun as (? & st5 & _ & Hrun).
  apply bind_Ok_inv in Hrun as (? & st6 & _ & Hrun).
  apply bind_Ok_inv in Hrun as (now & st7 & [Hnow _]%lift_Ok_inv & Hrun).
  apply bind_Ok_inv in Hrun as (? & st8 & _ & Hrun).
  injection Hrun as <- <-. simpl.
  rewrite length_map. split; [lia | eauto].
Qed.

Lemma for_range_Ok_elem (body : Z -> locals -> M locals) (indices : list Z) :
  forall (loc loc' : locals) (st st' : pstate),
    for_range indices body loc st = (Ok loc', st') ->
    forall j, j ∈ indices ->
      exists l s l' s', body j l s = (Ok l', s').
Proof.
  induction indices as [| i rest IH]; intros loc loc' st st' Hrun j Hj.
  - apply elem_of_nil in Hj. contradiction.
  - simpl in Hrun.
    apply bind_Ok_inv in Hrun as (loc1 & st1 & Hbody & Hrun).
    apply elem_of_cons in Hj as [-> | Hj]; [eauto 6 |].
    eapply IH; eassumption.
Qed.

Lemma for_range_Ok_count (body : Z -> locals -> M locals) (k : Z)
    (indices : list Z) :
  (forall j l s l' s', body j l s = (Ok l', s') ->
     instances_seen l' = instances_seen l + k) ->
  forall (loc loc' : locals) (st st' : pstate),
    for_range indices body loc st = (Ok loc', st') ->
    instances_seen loc' = instances_seen loc + k * Z.of_nat (length indices).
Proof.
  intros Hbody. induction indices as [| i rest IH];
    intros loc loc' st st' Hrun.
  - injection Hrun as <- <-. simpl. lia.
  - simpl in Hrun.
    apply bind_Ok_inv in Hrun as (loc1 & st1 & Hb & Hrun).
    apply Hbody in Hb. apply IH in Hrun. simpl length. lia.
Qed.

(** A run of [go] that returns is a run of the loop. *)
Lemma go_Ok_inv (cfg : config) (data : corpus) (st st' : pstate)
    (loc : locals) :
  go cfg data st = (Ok loc, st') ->
  exists data_train data_test m st1,
    for_range (py_range (num_batches cfg))
      (iteration cfg data_train data_test)
      (Locals m 0 (replicate 4 PosInf)) st1
    = (Ok loc, st').
Proof.
  unfold go. intros Hrun.
  apply bind_Ok_inv in Hrun as (s & st1 & _ & Hrun).
  apply bind_Ok_inv in Hrun as ([] & st2 & _ & Hrun).
  destruct (if final cfg then _ else _) as [data_train data_test].
  apply bind_Ok_inv in Hrun as (m & st3 & _ & Hrun).
  apply bind_Ok_inv in Hrun as ([] & st4 & _ & Hrun).
  eauto 6.
Qed.

(** X15: in a run that completes, the counter [instances_seen] ends at
    [batch_size] times the number of iterations,
    [batch_size * max(num_batches, 0)]. *)
Theorem go_instances_seen (cfg : config) (data : corpus) (st st' : pstate)
    (loc : locals) :
  go cfg data st = (Ok loc, st') ->
  instances_seen loc = batch_size cfg * Z.max 0 (num_batches cfg).
Proof.
  intros Hrun.
  apply go_Ok_inv in Hrun as (data_train & data_test & m & st1 & Hrun).
  apply for_range_Ok_count with (k := batch_size cfg) in Hrun.
  - simpl in Hrun. unfold py_range in Hrun.
    rewrite length_seqZ in Hrun. lia.
  - intros j l s l' s' Hb. apply iteration_Ok_inv in Hb as [Hb _]. exact Hb.
Qed.

(** X16: with [test_every = 0] a run of two or more iterations never
    completes: the test of line 280 divides by zero at iteration [1].  (A
    run of one iteration only reaches iteration [0], where the test stops
    at [i != 0].) *)
Theorem go_test_every_zero (cfg : config) (data : corpus) (st : pstate) :
  test_every cfg = 0 ->
  2 <= num_batches cfg ->
  is_Ok (go cfg data st).1 = false
  /\ test_now cfg 0 = Ok false
  /\ test_now cfg 1 = Raise ZeroDivisionError.
Proof.
  intros Hte Hnb.
  assert (H1 : test_now cfg 1 = Raise ZeroDivisionError)
    by (unfold test_now, py_mod; rewrite Hte; reflexivity).
  split; [| split; [reflexivity | exact H1]].
  destruct (go cfg data st) as [[loc | e] st'] eqn:Hrun; [| reflexivity].
  exfalso.
  apply go_Ok_inv in Hrun as (data_train & data_test & m & st1 & Hrun).
  eapply for_range_Ok_elem with (j := 1) in Hrun;
    [| apply elem_of_seqZ; lia].
  destruct Hrun as (l & s & l' & s' & Hb).
  apply iteration_Ok_inv in Hb as [_ [b Hb]].
  rewrite H1 in Hb. discriminate.
Qed.

Lemma bind_ext {A B} (m : M A) (f g : A -> M B) (st : pstate) :
  (forall a st1, m st = (Ok a, st1) -> f a st1 = g a st1) ->
  (m ≫= f) st = (m ≫= g) st.
Proof.
  intros Hfg. unfold mbind, M_bind.
  destruct (m st) as [[a | e] st1]; [apply Hfg |]; reflexivity.
Qed.

Lemma for_range_ext (body1 body2 : Z -> locals -> M locals)
    (indices : list Z) :
  (forall j l s, body1 j l s = body2 j l s) ->
  forall loc st,
    for_range indices body1 loc st = for_range indices body2 loc st.
Proof.
  intros Hb. induction indices as [| i rest IH]; intros loc st; simpl.
  - reflexivity.
  - rewrite (bind_ext _ _ (for_range rest body2)).
    + unfold mbind, M_bind. rewrite Hb. reflexivity.
    + intros a st1 _. apply IH.
Qed.

Lemma py_get_Ok_nonempty {A} (l : list A) (i : Z) (x : A) :
  py_get l i = Ok x -> l <> [].
Proof.
  intros Hget ->. revert Hget. unfold py_get.
  destruct (_ && _) eqn:E; [| discriminate].
  apply andb_true_iff in E as [E1 E2].
  apply Z.leb_le in E1. apply Z.ltb_lt in E2. simpl in E1, E2.
  destruct (i <? 0); lia.
Qed.

Lemma iteration_set_gamma (cfg : config) (g : R)
    (data_train data_test : list Z) (i : Z) (loc : locals) (st : pstate) :
  iteration (set_gamma cfg g) data_train data_test i loc st
  = iteration cfg data_train data_test i loc st.
Proof.
  unfold iteration.
  apply bind_ext. intros [source target] st1 _.
  apply bind_ext. intros outputs st2 _.
  apply bind_ext. intros teacher st3 [Hteacher _]%lift_Ok_inv.
  apply py_get_Ok_nonempty in Hteacher.
  unfold distill_loss, compute_ema_losses.
  destruct outputs as [| o outputs]; [congruence |].
  assert (Hlast : exists x,
             last (map (fun logits => cross_entropy logits target)
                     (o :: outputs)) = Some x).
  { apply is_Some_alt. destruct (last _) eqn:E; [done |].
    apply last_None in E. discriminate. }
  destruct Hlast as [x Hx]. cbv zeta. rewrite Hx. reflexivity.
Qed.

(** X18: the distillation weight does not reach the optimiser.  The
    logging loop of lines 247-248 rebinds [loss] to each layer loss in
    turn, so the backward pass of line 252 runs on the loss of the last
    layer, and two runs that differ in [gamma] only are the same run. *)
Theorem go_ignores_gamma (cfg : config) (g : R) (data : corpus)
    (st : pstate) :
  go (set_gamma cfg g) data st = go cfg data st.
Proof.
  unfold go.
  apply bind_ext. intros s st1 _.
  apply bind_ext. intros [] st2 _.
  change (final (set_gamma cfg g)) with (final cfg).
  destruct (if final cfg then _ else _) as [data_train data_test].
  apply bind_ext. intros m st3 _.
  apply bind_ext. intros [] st4 _.
  apply for_range_ext. intros j l s0. apply iteration_set_gamma.
Qed.

(** X20: when the held-out split has fewer than [context] tokens, the
    evaluation block raises a [ValueError] at its first statement, the
    draw of the seed offset from an empty range, before it prints or
    allocates anything. *)
Theorem evaluation_short_split (cfg : config) (data_test : list Z) (i : Z)
    (loc : locals) (st : pstate) :
  Z.of_nat (length data_test) < context cfg ->
  evaluation cfg data_test i loc st = (Raise ValueError, st).
Proof.
  intros Hshort. unfold evaluation.
  apply bind_Raise. unfold random_randint.
  replace (Z.of_nat (length data_test) - context cfg <? 0) with true
    by (symmetry; apply Z.ltb_lt; lia).
  reflexivity.
Qed.

End GoMore.

(** ** The further properties on the instance *)

(** The greedy call of the examples, run to its end. *)
Lemma greedy_run :
  sample_sequence tt 2 0%R false 1%positive 2 seed_state
  = (Ok 1%positive, greedy_final).
Proof.
  unfold sample_sequence.
  run_bind. run_bind.
  change (Z.to_nat 2) with 2%nat.
  erewrite bind_Ok.
  2: { erewrite sample_loop_greedy_step; try (vm_compute; reflexivity).
       erewrite sample_loop_greedy_step; try (vm_compute; reflexivity). }
  vm_compute. reflexivity.
Qed.

Lemma verbose_run :
  sample_sequence tt 2 0%R true 1%positive 0 seed_state
  = (Ok 1%positive, verbose_final).
Proof. vm_compute. reflexivity. Qed.


Lemma sample_sequence_output_witness :
  exists toks sampled : list Z,
    heap seed_state !! 1%positive = Some toks
    /\ length sampled = Z.to_nat 0
    /\ Forall (fun c => 32 <= c) sampled
    /\ trace verbose_final
       = trace seed_state
         ++ ([Print_open] ++ map Print_chr toks ++ [Print_close]
             ++ map Print_chr sampled)
         ++ [Print_newline].
Proof.
  apply (sample_sequence_output (LN := one_token_learner) tt 2 0%R true 1%positive 0
           seed_state verbose_final 1%positive).
  exact verbose_run.
Defined.

Lemma sample_sequence_randomness_witness :
  py_gen greedy_final = py_gen seed_state
  /\ (0%R = 0%R -> torch_gen greedy_final = torch_gen seed_state).
Proof.
  apply (sample_sequence_randomness (LN := one_token_learner) tt 2 0%R false 1%positive 2
           seed_state greedy_final 1%positive).
  exact greedy_run.
Defined.

Lemma context_window_witness :
  py_slice_from [1; 2; 3] (- 2) = drop (length [1; 2; 3] - Z.to_nat 2) [1; 2; 3]
  /\ Z.of_nat (length (py_slice_from [1; 2; 3] (- 2)))
     = Z.min 2 (Z.of_nat (length [1; 2; 3])).
Proof.
  destruct (context_window [1; 2; 3] 2) as [Hwindow _].
  apply Hwindow. lia.
Defined.

Lemma go_instances_seen_witness :
  exists (loc : locals) (st' : pstate),
    go cfg_run data_run (start_state 0 0) = (Ok loc, st')
    /\ instances_seen loc = 6.
Proof.
  destruct (go cfg_run data_run (start_state 0 0)) as [[loc | e] st'] eqn:Hrun.
  - exists loc, st'. split; [reflexivity |].
    apply (go_instances_seen cfg_run data_run (start_state 0 0) st' loc Hrun).
  - assert (Hok : is_Ok (go cfg_run data_run (start_state 0 0)).1 = true)
      by (vm_compute; reflexivity).
    rewrite Hrun in Hok. discriminate.
Defined.

Lemma go_test_every_zero_witness :
  is_Ok (go cfg_zero data_run (start_state 0 0)).1 = false
  /\ test_now cfg_zero 0 = Ok false
  /\ test_now cfg_zero 1 = Raise ZeroDivisionError.
Proof.
  apply go_test_every_zero; [reflexivity | simpl; lia].
Defined.

Lemma go_explicit_seed_torch_witness :
  go cfg_run data_run (PState 0 0 ∅ []) = go cfg_run data_run (PState 7 0 ∅ []).
Proof.
  apply (go_explicit_seed_torch (LN := one_token_learner) cfg_run data_run
           (0 : Z) (7 : Z) (0 : Z) ∅ []).
  simpl. lia.
Defined.

Lemma evaluation_short_split_witness :
  evaluation cfg_run [21] 1 (@Locals counter_random one_token_learner tt 2 [])
    (start_state 0 0)
  = (Raise ValueError, start_state 0 0).
Proof.
  apply evaluation_short_split. simpl. lia.
Defined.

